(** * stt-worker: the speech-to-text relay handler

    A shallow embedding of [src/index.ts].  The file holds two variants of
    the same worker: the first (lines 1-181) encodes the audio with
    [String.fromCharCode] and [btoa], the second (lines 182-317) with
    [Buffer.from(..).toString("base64")].  Both are embedded, in the
    modules [V1] and [V2].

    The handler is asynchronous code that talks to two outside services
    (the token exchange of google-auth-library and the speech API reached
    through the platform's [fetch]).  It is embedded as a program in a
    small free monad [prog] whose effects are the calls to the outside; a
    [World] answers them, and [run] gives the result of the handler
    together with the trace of the calls it made. *)

From Stdlib Require Import List NArith ZArith Bool Ascii String Strings.Byte Lia.
From Stdlib Require Import DecimalString.
From ExtLib Require Import Structures.Monad.
Import ListNotations.
Import MonadNotation.
Local Open Scope monad_scope.
Local Open Scope N_scope.

(** ** JavaScript strings

    A JavaScript string is a sequence of 16-bit code units. *)

Definition code_unit := N.
Definition jsstring := list code_unit.

(** [str] turns a literal of the embedding into the JavaScript string with
    the same (Latin-1) characters. *)
Definition str (s : string) : jsstring :=
  map N_of_ascii (list_ascii_of_string s).

(** The double quote U+0022 and a string between double quotes. *)
Definition dquote : code_unit := 34.
Definition quoted (s : jsstring) : jsstring := dquote :: s ++ [dquote].

(** Strict equality [===] on two strings. *)
Fixpoint strict_eq (s t : jsstring) : bool :=
  match s, t with
  | [], [] => true
  | c :: s', d :: t' => (c =? d) && strict_eq s' t'
  | _, _ => false
  end.

Infix "===" := strict_eq (at level 70, no associativity).

(** ToBoolean on a string: only the empty string is falsy. *)
Definition string_truthy (s : jsstring) : bool :=
  match s with [] => false | _ :: _ => true end.

(** ** Values thrown and promise rejections *)

Inductive JsError : Type :=
| Error (name message : jsstring).

Definition message (e : JsError) : jsstring :=
  match e with Error _ m => m end.

Inductive result (A : Type) : Type :=
| Ok (a : A)
| Err (e : JsError).
Arguments Ok {A} a.
Arguments Err {A} e.

(** ** Base64

    [btoa] and [Buffer.prototype.toString("base64")] both produce the
    base64 encoding of RFC 4648, section 4: the standard alphabet, with
    [=] padding. *)

Definition base64_alphabet : jsstring :=
  str "ABCDEFGHIJKLMNOPQRSTUVWXYZabcdefghijklmnopqrstuvwxyz0123456789+/".

Definition base64_pad : code_unit := 61.

Definition sextet (n : N) : code_unit :=
  nth (N.to_nat (N.land n 63)) base64_alphabet base64_pad.

Fixpoint base64_encode (octets : list N) : jsstring :=
  match octets with
  | [] => []
  | [a] =>
      [ sextet (N.shiftr a 2);
        sextet (N.shiftl (N.land a 3) 4);
        base64_pad; base64_pad ]
  | [a; b] =>
      [ sextet (N.shiftr a 2);
        sextet (N.lor (N.shiftl (N.land a 3) 4) (N.shiftr b 4));
        sextet (N.shiftl (N.land b 15) 2);
        base64_pad ]
  | a :: b :: c :: rest =>
      sextet (N.shiftr a 2)
      :: sextet (N.lor (N.shiftl (N.land a 3) 4) (N.shiftr b 4))
      :: sextet (N.lor (N.shiftl (N.land b 15) 2) (N.shiftr c 6))
      :: sextet (N.land c 63)
      :: base64_encode rest
  end.

(** [String.fromCharCode(...args)]: each argument goes through ToUint16.
    (The language puts no bound on the number of arguments; an engine's
    own limit on the size of a spread call is outside this model.) *)
Definition String_fromCharCode (args : list N) : jsstring :=
  map (fun n => n mod 65536) args.

(** [btoa(s)]: throws an [InvalidCharacterError] when [s] has a code unit
    above U+00FF, and otherwise encodes the code units as octets. *)
Definition btoa (s : jsstring) : result jsstring :=
  if forallb (fun c => c <=? 255) s
  then Ok (base64_encode s)
  else Err (Error (str "InvalidCharacterError") (str "Invalid character")).

(** [new Uint8Array(buffer)] read as the list of its elements. *)
Definition Uint8Array (buffer : list byte) : list N := map Byte.to_N buffer.

(** [buffer.byteLength]. *)
Definition byteLength (buffer : list byte) : N := N.of_nat (List.length buffer).

(** [Buffer.from(buffer).toString("base64")]. *)
Definition Buffer_toString_base64 (buffer : list byte) : jsstring :=
  base64_encode (map Byte.to_N buffer).

(** ** JSON.stringify

    The values the handler serialises are built from strings, integers
    and object literals. *)

#[warnings="-register-all"]
Inductive json : Type :=
| JString (s : jsstring)
| JInt (n : Z)
| JObject (fields : list (jsstring * json)).

Definition hex_digit (n : N) : code_unit :=
  nth (N.to_nat (N.land n 15)) (str "0123456789abcdef") 48.

(** The escape [\uXXXX] of a code unit, in lower-case hexadecimal. *)
Definition unicode_escape (c : code_unit) : jsstring :=
  str "\u" ++ [ hex_digit (N.shiftr c 12); hex_digit (N.shiftr c 8);
                hex_digit (N.shiftr c 4); hex_digit c ].

Definition is_high_surrogate (c : code_unit) : bool :=
  (55296 <=? c) && (c <=? 56319).
Definition is_low_surrogate (c : code_unit) : bool :=
  (56320 <=? c) && (c <=? 57343).

(** The escape of one code unit that is not part of a surrogate pair. *)
Definition escape_unit (c : code_unit) : jsstring :=
  if c =? 8 then str "\b"
  else if c =? 9 then str "\t"
  else if c =? 10 then str "\n"
  else if c =? 12 then str "\f"
  else if c =? 13 then str "\r"
  else if c =? 34 then [92; 34]
  else if c =? 92 then [92; 92]
  else if (c <? 32) || is_high_surrogate c || is_low_surrogate c
       then unicode_escape c
  else [c].

(** The body of QuoteJSONString: a well-formed surrogate pair is copied,
    everything else is escaped one code unit at a time. *)
Fixpoint escape_json (s : jsstring) : jsstring :=
  match s with
  | [] => []
  | c :: rest =>
      match rest with
      | d :: rest' =>
          if is_high_surrogate c && is_low_surrogate d
          then c :: d :: escape_json rest'
          else escape_unit c ++ escape_json rest
      | [] => escape_unit c
      end
  end.

Definition QuoteJSONString (s : jsstring) : jsstring :=
  quoted (escape_json s).

(** Number::toString on an integer (below 10^21 in absolute value). *)
Definition Number_toString (n : Z) : jsstring :=
  str (NilZero.string_of_int (Z.to_int n)).

Fixpoint join_fields (fields : list jsstring) : jsstring :=
  match fields with
  | [] => []
  | [f] => f
  | f :: rest => f ++ str "," ++ join_fields rest
  end.

Fixpoint JSON_stringify (v : json) : jsstring :=
  match v with
  | JString s => QuoteJSONString s
  | JInt n => Number_toString n
  | JObject fields =>
      str "{"
      ++ join_fields
           (map (fun kv => QuoteJSONString (fst kv) ++ str ":" ++ JSON_stringify (snd kv))
                fields)
      ++ str "}"
  end.

(** ** Requests and responses *)

(** [new URL(request.url)], by the components the handler reads. *)
Record URL : Type := {
  pathname : jsstring;
  search : jsstring
}.

Record Request : Type := {
  method : jsstring;
  url : URL;
  request_headers : list (jsstring * jsstring);
  (** what [request.arrayBuffer()] resolves to *)
  arrayBuffer : list byte
}.

(** [env]: the binding [SHEETS_SERVICE_KEY_JSON] is a string, or is not
    there at all ([undefined]). *)
Record Env : Type := {
  SHEETS_SERVICE_KEY_JSON : option jsstring
}.

(** ToBoolean on a binding: [undefined] and the empty string are falsy.
    A truthy binding is returned as the string it holds. *)
Definition truthy (v : option jsstring) : option jsstring :=
  match v with
  | Some s => if string_truthy s then Some s else None
  | None => None
  end.

Record Response : Type := {
  status : N;
  headers : list (jsstring * jsstring);
  body : option jsstring
}.

Record ResponseInit : Type := {
  init_status : option N;
  init_headers : list (jsstring * jsstring)
}.

(** Header names are compared without regard to ASCII case. *)
Definition ascii_lower (c : code_unit) : code_unit :=
  if (65 <=? c) && (c <=? 90) then c + 32 else c.

Definition header_name_eq (a b : jsstring) : bool :=
  map ascii_lower a === map ascii_lower b.

Fixpoint get_header (name : jsstring) (hs : list (jsstring * jsstring))
  : option jsstring :=
  match hs with
  | [] => None
  | (n, v) :: rest => if header_name_eq n name then Some v else get_header name rest
  end.

(** [new Response(body, init)] with a string body: the status defaults to
    200, and a body given as a string brings the content type
    [text/plain;charset=UTF-8] unless [init] names one. *)
Definition new_Response (b : jsstring) (init : ResponseInit) : Response :=
  {| status := match init_status init with Some s => s | None => 200 end;
     headers :=
       match get_header (str "Content-Type") (init_headers init) with
       | Some _ => init_headers init
       | None => init_headers init
                 ++ [(str "Content-Type", str "text/plain;charset=UTF-8")]
       end;
     body := Some b |}.

(** [Response.redirect(url)]: status 302, the target in [Location], no
    body. *)
Definition Response_redirect (target : jsstring) : Response :=
  {| status := 302;
     headers := [(str "Location", target)];
     body := None |}.

(** ** The outside services *)

(** The second argument of the outbound [fetch]. *)
Record RequestInit : Type := {
  fetch_method : jsstring;
  fetch_headers : list (jsstring * jsstring);
  fetch_body : jsstring
}.

(** The speech API's answer, typed as the source types it (line 296):
    [{ results?: { alternatives?: { transcript?: string }[] }[] }].  An
    optional property that is missing is [None]. *)
Record Alternative : Type := {
  transcript : option jsstring
}.
Record SpeechResult : Type := {
  alternatives : option (list Alternative)
}.
Record RecognizeResponse : Type := {
  results : option (list SpeechResult)
}.

(** The response of the outbound [fetch], by what the handler reads of it:
    its status, what [text()] resolves to, and what [json()] resolves to
    (or rejects with, when the body is not JSON). *)
Record ApiResponse : Type := {
  api_status : N;
  text : jsstring;
  json_body : result RecognizeResponse
}.

(** [response.ok]: the status is in the range 200-299. *)
Definition ok (r : ApiResponse) : bool :=
  (200 <=? api_status r) && (api_status r <=? 299).

(** [token.access_token] of google-auth-library's [Credentials] is typed
    [string | null | undefined]. *)
Inductive access_token : Type :=
| TokenUndefined
| TokenNull
| TokenString (s : jsstring).

(** The token as a template literal interpolates it. *)
Definition token_text (t : access_token) : jsstring :=
  match t with
  | TokenUndefined => str "undefined"
  | TokenNull => str "null"
  | TokenString s => s
  end.

(** What [client.authorize()] of google-auth-library resolves to, by the
    one property read of it. *)
Record Credentials : Type := {
  access_token_of : access_token
}.

(** What [JSON.parse] makes of the credential blob, by what
    [getAuthToken] reads of it: the properties [client_email] and
    [private_key] ([None] when the value has no such property), or [null],
    of which no property can be read. *)
Inductive service_key : Type :=
| KeyNull
| KeyValue (client_email private_key : option jsstring).

(** ** Programs

    A handler is a program that returns, throws, or makes one of three
    calls to the outside and goes on with the answer; the answer of a call
    is a value or a rejection. *)

Inductive prog (A : Type) : Type :=
| Ret (a : A)
| Throw (e : JsError)
| CallParse (source : jsstring) (k : result service_key -> prog A)
| CallAuthorize (email key : option jsstring) (scopes : list jsstring)
                (k : result Credentials -> prog A)
| CallFetch (target : jsstring) (init : RequestInit)
            (k : result ApiResponse -> prog A).
Arguments Ret {A} a.
Arguments Throw {A} e.
Arguments CallParse {A} source k.
Arguments CallAuthorize {A} email key scopes k.
Arguments CallFetch {A} target init k.

Fixpoint prog_bind {A B : Type} (p : prog A) (f : A -> prog B) : prog B :=
  match p with
  | Ret a => f a
  | Throw e => Throw e
  | CallParse s k => CallParse s (fun r => prog_bind (k r) f)
  | CallAuthorize e key sc k => CallAuthorize e key sc (fun r => prog_bind (k r) f)
  | CallFetch u i k => CallFetch u i (fun r => prog_bind (k r) f)
  end.

#[global] Instance Monad_prog : Monad prog :=
  {| ret := @Ret; bind := @prog_bind |}.

(** [await] of a promise: its value, or its rejection thrown. *)
Definition settle {A : Type} (r : result A) : prog A :=
  match r with
  | Ok a => Ret a
  | Err e => Throw e
  end.

(** The three calls, awaited: [JSON.parse(source)], which throws on a
    text that is not JSON; [await new JWT({email, key, scopes}).authorize()];
    and [await fetch(target, init)]. *)
Definition JSON_parse (source : jsstring) : prog service_key :=
  CallParse source settle.
Definition JWT_authorize (email key : option jsstring) (scopes : list jsstring)
  : prog Credentials :=
  CallAuthorize email key scopes settle.
Definition global_fetch (target : jsstring) (init : RequestInit) : prog ApiResponse :=
  CallFetch target init settle.

(** [try { p } catch (err) { ... }], as the result the [catch] clause
    dispatches on. *)
Fixpoint attempt {A : Type} (p : prog A) : prog (result A) :=
  match p with
  | Ret a => Ret (Ok a)
  | Throw e => Ret (Err e)
  | CallParse s k => CallParse s (fun r => attempt (k r))
  | CallAuthorize e key sc k => CallAuthorize e key sc (fun r => attempt (k r))
  | CallFetch u i k => CallFetch u i (fun r => attempt (k r))
  end.

(** The world answers the calls. *)
Record World : Type := {
  parse_answer : jsstring -> result service_key;
  authorize_answer :
    option jsstring -> option jsstring -> list jsstring -> result Credentials;
  fetch_answer : jsstring -> RequestInit -> result ApiResponse
}.

Inductive event : Type :=
| Parsed (source : jsstring) (r : result service_key)
| Authorized (email key : option jsstring) (scopes : list jsstring)
             (r : result Credentials)
| Fetched (target : jsstring) (init : RequestInit) (r : result ApiResponse).

(** [run w p]: the calls the program made in the world [w], in order, and
    how it ended: [Ok] is the value returned, [Err] the error thrown out
    of the handler. *)
Fixpoint run {A : Type} (w : World) (p : prog A) : list event * result A :=
  match p with
  | Ret a => ([], Ok a)
  | Throw e => ([], Err e)
  | CallParse s k =>
      let r := parse_answer w s in
      let (t, o) := run w (k r) in (Parsed s r :: t, o)
  | CallAuthorize e key sc k =>
      let r := authorize_answer w e key sc in
      let (t, o) := run w (k r) in (Authorized e key sc r :: t, o)
  | CallFetch u i k =>
      let r := fetch_answer w u i in
      let (t, o) := run w (k r) in (Fetched u i r :: t, o)
  end.

Definition trace {A : Type} (w : World) (p : prog A) : list event :=
  fst (run w p).
Definition outcome {A : Type} (w : World) (p : prog A) : result A :=
  snd (run w p).

(** The outbound call to the speech API was made and answered with [r]. *)
Definition api_answered (t : list event) (r : result ApiResponse) : Prop :=
  exists target init, In (Fetched target init r) t.

(** ** What both variants share *)

Definition icon_url : jsstring :=
  str "https://jacklehamster.github.io/stt-worker/icon.png".
Definition sttApiUrl : jsstring :=
  str "https://speech.googleapis.com/v1/speech:recognize".
Definition cloud_platform_scope : jsstring :=
  str "https://www.googleapis.com/auth/cloud-platform".
Definition fallback : jsstring := str "No transcription available".

(** The request body sent to the speech API (lines 129-138, 266-275). *)
Definition payload (audioBase64 : jsstring) : json :=
  JObject
    [ (str "config",
       JObject [ (str "encoding", JString (str "MP3"));
                 (str "sampleRateHertz", JInt 16000);
                 (str "languageCode", JString (str "en-US")) ]);
      (str "audio",
       JObject [ (str "content", JString audioBase64) ]) ].

(** Optional chaining: [a?.[0]] on an array that may be undefined, and
    [x?.p] on an object that may be undefined. *)
Definition opt_first {A : Type} (a : option (list A)) : option A :=
  match a with
  | Some l => nth_error l 0
  | None => None
  end.

Definition opt_prop {A B : Type} (x : option A) (p : A -> option B) : option B :=
  match x with
  | Some a => p a
  | None => None
  end.

(** [v || d] on a string that may be undefined. *)
Definition or_else (v : option jsstring) (d : jsstring) : jsstring :=
  match v with
  | Some s => if string_truthy s then s else d
  | None => d
  end.

(** [result.results?.[0]?.alternatives?.[0]?.transcript
     || "No transcription available"] (lines 160, 297). *)
Definition transcription (result : RecognizeResponse) : jsstring :=
  or_else
    (opt_prop (opt_first (opt_prop (opt_first (results result)) alternatives))
              transcript)
    fallback.

(** ** The first variant (lines 1-181) *)

Module V1.
Section Handler.

(** The markup of the demo page, the template literal of lines 14-95. *)
Variable html : jsstring.

(** [getAuthToken] (lines 171-181).  The dynamic import of line 172
    resolves to the module already imported at line 1. *)
Definition getAuthToken (credentials : jsstring) : prog access_token :=
  creds <- JSON_parse credentials ;;
  match creds with
  | KeyNull =>
      Throw (Error (str "TypeError")
                   (str "Cannot read properties of null (reading 'client_email')"))
  | KeyValue client_email private_key =>
      token <- JWT_authorize client_email private_key [cloud_platform_scope] ;;
      ret (access_token_of token)
  end.

(** [fetch] (lines 4-168). *)
Definition fetch (request : Request) (env : Env) : prog Response :=
  let url := url request in
  if pathname url === str "/favicon.ico" then
    ret (Response_redirect icon_url)
  else if (method request === str "GET") && (pathname url === str "/") then
    ret (new_Response html
           {| init_status := None;
              init_headers := [ (str "Content-Type", str "text/html");
                                (str "Cache-Control", str "public, max-age=3600") ] |})
  else if negb (method request === str "POST") then
    ret (new_Response (str "Method not allowed. Use POST with audio data.")
           {| init_status := Some 405;
              init_headers := [ (str "Content-Type", str "text/plain") ] |})
  else
    match truthy (SHEETS_SERVICE_KEY_JSON env) with
    | None =>
        ret (new_Response (str "Missing service credentials")
               {| init_status := Some 500; init_headers := [] |})
    | Some credentials =>
        let audioBuffer := arrayBuffer request in
        if byteLength audioBuffer =? 0 then
          ret (new_Response (str "No audio data provided")
                 {| init_status := Some 400; init_headers := [] |})
        else
          let audioBytes := Uint8Array audioBuffer in
          let binaryString := String_fromCharCode audioBytes in
          audioBase64 <- settle (btoa binaryString) ;;
          authToken <- getAuthToken credentials ;;
          sttResponse <-
            attempt
              (global_fetch sttApiUrl
                 {| fetch_method := str "POST";
                    fetch_headers :=
                      [ (str "Authorization", str "Bearer " ++ token_text authToken);
                        (str "Content-Type", str "application/json") ];
                    fetch_body := JSON_stringify (payload audioBase64) |}) ;;
          match sttResponse with
          | Err err =>
              ret (new_Response (str "Fetch error: " ++ message err)
                     {| init_status := Some 503; init_headers := [] |})
          | Ok sttResponse =>
              if negb (ok sttResponse) then
                let errorText := text sttResponse in
                ret (new_Response (str "STT API error: " ++ errorText)
                       {| init_status := Some 500; init_headers := [] |})
              else
                result <- settle (json_body sttResponse) ;;
                ret (new_Response
                       (JSON_stringify (JObject [ (str "text", JString (transcription result)) ]))
                       {| init_status := None;
                          init_headers := [ (str "Content-Type", str "application/json");
                                            (str "Cache-Control", str "no-store") ] |})
          end
    end.

End Handler.
End V1.

(** ** The second variant (lines 182-317) *)

Module V2.
Section Handler.

(** The markup of the demo page, the template literal of lines 195-237. *)
Variable html : jsstring.

(** [getAuthToken] (lines 308-317). *)
Definition getAuthToken (credentials : jsstring) : prog access_token :=
  creds <- JSON_parse credentials ;;
  match creds with
  | KeyNull =>
      Throw (Error (str "TypeError")
                   (str "Cannot read properties of null (reading 'client_email')"))
  | KeyValue client_email private_key =>
      token <- JWT_authorize client_email private_key [cloud_platform_scope] ;;
      ret (access_token_of token)
  end.

(** [fetch] (lines 185-305).  The outbound [fetch] resolves to a response
    object, on which [sttResponse?.ok] and [sttResponse?.text()] are
    [sttResponse.ok] and [sttResponse.text()]. *)
Definition fetch (request : Request) (env : Env) : prog Response :=
  let url := url request in
  if pathname url === str "/favicon.ico" then
    ret (Response_redirect icon_url)
  else if (method request === str "GET") && (pathname url === str "/") then
    ret (new_Response html
           {| init_status := None;
              init_headers := [ (str "Content-Type", str "text/html") ] |})
  else if negb (method request === str "POST") then
    ret (new_Response (str "Method not allowed. Use POST with audio data.")
           {| init_status := Some 405;
              init_headers := [ (str "Content-Type", str "text/plain") ] |})
  else
    match truthy (SHEETS_SERVICE_KEY_JSON env) with
    | None =>
        ret (new_Response (str "Missing service credentials")
               {| init_status := Some 500; init_headers := [] |})
    | Some credentials =>
        let audioBuffer := arrayBuffer request in
        if byteLength audioBuffer =? 0 then
          ret (new_Response (str "No audio data provided")
                 {| init_status := Some 400; init_headers := [] |})
        else
          let audioBase64 := Buffer_toString_base64 audioBuffer in
          authToken <- getAuthToken credentials ;;
          sttResponse <-
            attempt
              (global_fetch sttApiUrl
                 {| fetch_method := str "POST";
                    fetch_headers :=
                      [ (str "Authorization", str "Bearer " ++ token_text authToken);
                        (str "Content-Type", str "application/json") ];
                    fetch_body := JSON_stringify (payload audioBase64) |}) ;;
          match sttResponse with
          | Err err =>
              ret (new_Response (str "Fetch error: " ++ message err)
                     {| init_status := Some 503; init_headers := [] |})
          | Ok sttResponse =>
              if negb (ok sttResponse) then
                let errorText := text sttResponse in
                ret (new_Response (str "STT API error: " ++ errorText)
                       {| init_status := Some 500; init_headers := [] |})
              else
                result <- settle (json_body sttResponse) ;;
                ret (new_Response
                       (JSON_stringify (JObject [ (str "text", JString (transcription result)) ]))
                       {| init_status := None;
                          init_headers := [ (str "Content-Type", str "application/json");
                                            (str "Cache-Control", str "no-store") ] |})
          end
    end.

End Handler.
End V2.

(** ** What the handler answers once the speech API has answered

    [respond] is the response that lines 150-167 (and 287-304) build from
    the answer of the outbound call. *)
Definition respond (r : result ApiResponse) : result Response :=
  match r with
  | Err err =>
      Ok {| status := 503;
            headers := [ (str "Content-Type", str "text/plain;charset=UTF-8") ];
            body := Some (str "Fetch error: " ++ message err) |}
  | Ok sttResponse =>
      if ok sttResponse then
        match json_body sttResponse with
        | Ok result =>
            Ok {| status := 200;
                  headers := [ (str "Content-Type", str "application/json");
                               (str "Cache-Control", str "no-store") ];
                  body := Some (str "{" ++ quoted (str "text") ++ str ":"
                                ++ QuoteJSONString (transcription result) ++ str "}") |}
        | Err e => Err e
        end
      else
        Ok {| status := 500;
              headers := [ (str "Content-Type", str "text/plain;charset=UTF-8") ];
              body := Some (str "STT API error: " ++ text sttResponse) |}
  end.

(** ** Sample requests and worlds *)

Definition root : URL := {| pathname := str "/"; search := [] |}.
Definition favicon : URL := {| pathname := str "/favicon.ico"; search := str "?v=2" |}.

Definition sample_audio : list byte :=
  [x00; xff; x10; x80; x7f; x49; x44; x33; x0a; xc3].

Definition post (u : URL) (audio : list byte) : Request :=
  {| method := str "POST"; url := u;
     request_headers := [ (str "Content-Type", str "audio/mpeg") ];
     arrayBuffer := audio |}.

Definition bare (m : jsstring) (u : URL) : Request :=
  {| method := m; url := u; request_headers := []; arrayBuffer := [] |}.

Definition no_key : Env := {| SHEETS_SERVICE_KEY_JSON := None |}.
Definition with_key : Env := {| SHEETS_SERVICE_KEY_JSON := Some (str "{}") |}.

(** A world where the token exchange gives the token [tok] and the speech
    API answers [r]. *)
Definition world_answering (r : result ApiResponse) : World :=
  {| parse_answer := fun _ => Ok (KeyValue (Some (str "sa@example.org")) (Some (str "key")));
     authorize_answer := fun _ _ _ => Ok {| access_token_of := TokenString (str "tok") |};
     fetch_answer := fun _ _ => r |}.

Definition answer_with (t : option jsstring) : ApiResponse :=
  {| api_status := 200; text := [];
     json_body :=
       Ok {| results := Some [ {| alternatives := Some [ {| transcript := t |} ] |} ] |} |}.

Definition answer_hello : ApiResponse := answer_with (Some (str "hello")).

Definition answer_forbidden : ApiResponse :=
  {| api_status := 403; text := str "PERMISSION_DENIED";
     json_body := Err (Error (str "SyntaxError") (str "Unexpected token")) |}.

Definition network_down : JsError :=
  Error (str "TypeError") (str "Network connection lost.").

Definition page : jsstring := str "<!DOCTYPE html>".

(** ** The specification's reading of the answer

    [first_transcript] is [results[0].alternatives[0].transcript] read off
    the answer by cases, with [None] when any step of the path is absent. *)
Definition first_transcript (result : RecognizeResponse) : option jsstring :=
  match results result with
  | Some (r :: _) =>
      match alternatives r with
      | Some (a :: _) => transcript a
      | _ => None
      end
  | _ => None
  end.

(** The JSON text [{"text":<t>}] for a transcript [t]. *)
Definition text_object (t : jsstring) : jsstring :=
  str "{" ++ quoted (str "text") ++ str ":" ++ QuoteJSONString t ++ str "}".

(** The response [r] has the status [st] and the text [b] as its body. *)
Definition answers (o : result Response) (st : N) (b : jsstring) : Prop :=
  exists r, o = Ok r /\ status r = st /\ body r = Some b.

(** ** The runs of the handler, spelled out *)

(** The second argument of the outbound [fetch] (lines 142-149, 279-286)
    for a token and an audio buffer. *)
Definition stt_request (authToken : access_token) (audio : list byte) : RequestInit :=
  {| fetch_method := str "POST";
     fetch_headers :=
       [ (str "Authorization", str "Bearer " ++ token_text authToken);
         (str "Content-Type", str "application/json") ];
     fetch_body := JSON_stringify (payload (Buffer_toString_base64 audio)) |}.

(** The calls and the result of the relay proper (lines 121-167), by
    what the world answers. *)
Definition relay (w : World) (credentials : jsstring) (audio : list byte)
  : list event * result Response :=
  match parse_answer w credentials with
  | Err e => ([ Parsed credentials (Err e) ], Err e)
  | Ok KeyNull =>
      ([ Parsed credentials (Ok KeyNull) ],
       Err (Error (str "TypeError")
                  (str "Cannot read properties of null (reading 'client_email')")))
  | Ok (KeyValue email key) =>
      match authorize_answer w email key [cloud_platform_scope] with
      | Err e =>
          ([ Parsed credentials (Ok (KeyValue email key));
             Authorized email key [cloud_platform_scope] (Err e) ],
           Err e)
      | Ok token =>
          let init := stt_request (access_token_of token) audio in
          ([ Parsed credentials (Ok (KeyValue email key));
             Authorized email key [cloud_platform_scope] (Ok token);
             Fetched sttApiUrl init (fetch_answer w sttApiUrl init) ],
           respond (fetch_answer w sttApiUrl init))
      end
  end.

(** The run of a handler whose answer to a GET of the root is
    [root_page]. *)
Definition handle (root_page : Response) (request : Request) (env : Env) (w : World)
  : list event * result Response :=
  if pathname (url request) === str "/favicon.ico" then
    ([], Ok (Response_redirect icon_url))
  else if (method request === str "GET") && (pathname (url request) === str "/") then
    ([], Ok root_page)
  else if negb (method request === str "POST") then
    ([], Ok {| status := 405;
               headers := [ (str "Content-Type", str "text/plain") ];
               body := Some (str "Method not allowed. Use POST with audio data.") |})
  else
    match truthy (SHEETS_SERVICE_KEY_JSON env) with
    | None =>
        ([], Ok {| status := 500;
                   headers := [ (str "Content-Type", str "text/plain;charset=UTF-8") ];
                   body := Some (str "Missing service credentials") |})
    | Some credentials =>
        match arrayBuffer request with
        | [] =>
            ([], Ok {| status := 400;
                       headers := [ (str "Content-Type", str "text/plain;charset=UTF-8") ];
                       body := Some (str "No audio data provided") |})
        | _ :: _ => relay w credentials (arrayBuffer request)
        end
    end.

(** The pages of the two variants, as responses (lines 96-101, 238-242). *)
Definition page_v1 (html : jsstring) : Response :=
  {| status := 200;
     headers := [ (str "Content-Type", str "text/html");
                  (str "Cache-Control", str "public, max-age=3600") ];
     body := Some html |}.
Definition page_v2 (html : jsstring) : Response :=
  {| status := 200;
     headers := [ (str "Content-Type", str "text/html") ];
     body := Some html |}.

(** The statuses the handler answers with. *)
Definition statuses : list N := [200; 302; 400; 405; 500; 503].

(** ** Reading base64 back

    The inverse of [sextet] on the alphabet, and the decoding of a padded
    base64 text; they serve to show that the encoding loses nothing. *)
Definition base64_index (c : code_unit) : N :=
  if (65 <=? c) && (c <=? 90) then c - 65
  else if (97 <=? c) && (c <=? 122) then c - 71
  else if (48 <=? c) && (c <=? 57) then c + 4
  else if c =? 43 then 62
  else if c =? 47 then 63
  else 0.

Fixpoint base64_decode (s : jsstring) : list N :=
  match s with
  | c1 :: c2 :: c3 :: c4 :: rest =>
      let i1 := base64_index c1 in
      let i2 := base64_index c2 in
      let i3 := base64_index c3 in
      let i4 := base64_index c4 in
      let o1 := N.lor (N.shiftl i1 2) (N.shiftr i2 4) in
      let o2 := N.lor (N.shiftl (N.land i2 15) 4) (N.shiftr i3 2) in
      let o3 := N.lor (N.shiftl (N.land i3 3) 6) i4 in
      if c3 =? base64_pad then [o1]
      else if c4 =? base64_pad then [o1; o2]
      else o1 :: o2 :: o3 :: base64_decode rest
  | _ => []
  end.

(** A code unit that QuoteJSONString copies as it is. *)
Definition plain_unit (c : code_unit) : bool :=
  (32 <=? c) && negb (c =? 34) && negb (c =? 92)
  && negb (is_high_surrogate c) && negb (is_low_surrogate c).

(** The numbers below [n], for checks by enumeration. *)
Definition below (n : nat) : list N := map N.of_nat (seq 0 n).

(** Worlds by their three answers, and some answers. *)
Definition world_of (k : result service_key) (c : result Credentials)
           (a : result ApiResponse) : World :=
  {| parse_answer := fun _ => k;
     authorize_answer := fun _ _ _ => c;
     fetch_answer := fun _ _ => a |}.

Definition sample_key : service_key :=
  KeyValue (Some (str "sa@example.org")) (Some (str "key")).

Definition syntax_error : JsError :=
  Error (str "SyntaxError") (str "Unexpected token").
Definition invalid_grant : JsError :=
  Error (str "Error") (str "invalid_grant").

Definition answer_not_json : ApiResponse :=
  {| api_status := 200; text := str "<html>"; json_body := Err syntax_error |}.

(** * Properties *)

(** ** Strings and base64 *)

Lemma strict_eq_true (s t : jsstring) : (s === t) = true <-> s = t.
Proof.
  revert t; induction s as [|c s IH]; intros [|d t]; simpl; split;
    try congruence; try reflexivity.
  - intros H. apply andb_true_iff in H as [Hc Hs].
    apply N.eqb_eq in Hc. apply IH in Hs. congruence.
  - intros H. injection H as -> ->.
    rewrite N.eqb_refl. simpl. now apply IH.
Qed.

Lemma strict_eq_false (s t : jsstring) : (s === t) = false <-> s <> t.
Proof.
  rewrite <- strict_eq_true. destruct (s === t); split; congruence.
Qed.

Example rfc4648_vectors :
  base64_encode (str "") = str "" /\
  base64_encode (str "f") = str "Zg==" /\
  base64_encode (str "fo") = str "Zm8=" /\
  base64_encode (str "foo") = str "Zm9v" /\
  base64_encode (str "foob") = str "Zm9vYg==" /\
  base64_encode (str "fooba") = str "Zm9vYmE=" /\
  base64_encode (str "foobar") = str "Zm9vYmFy".
Proof. repeat split. Qed.

Example stringify_payload :
  JSON_stringify (payload (str "Zm9v"))
  = str "{" ++ quoted (str "config") ++ str ":{"
    ++ quoted (str "encoding") ++ str ":" ++ quoted (str "MP3") ++ str ","
    ++ quoted (str "sampleRateHertz") ++ str ":16000,"
    ++ quoted (str "languageCode") ++ str ":" ++ quoted (str "en-US") ++ str "},"
    ++ quoted (str "audio") ++ str ":{"
    ++ quoted (str "content") ++ str ":" ++ quoted (str "Zm9v") ++ str "}}".
Proof. reflexivity. Qed.

Example stringify_escapes :
  QuoteJSONString [34; 10; 104; 233; 55357; 56832; 56832]
  = quoted (str "\" ++ [34] ++ str "\nh" ++ [233; 55357; 56832] ++ str "\ude00").
Proof. reflexivity. Qed.

(** The octets of a byte array pass through [String.fromCharCode]
    unchanged, and [btoa] accepts them. *)
Lemma fromCharCode_octets (buffer : list byte) :
  String_fromCharCode (Uint8Array buffer) = map Byte.to_N buffer.
Proof.
  unfold String_fromCharCode, Uint8Array.
  induction buffer as [|b buffer IH]; simpl; [reflexivity|].
  rewrite IH. f_equal. apply N.mod_small.
  pose proof (Byte.to_N_bounded b). lia.
Qed.

Lemma octets_in_range (buffer : list byte) :
  forallb (fun c => c <=? 255) (map Byte.to_N buffer) = true.
Proof.
  induction buffer as [|b buffer IH]; simpl; [reflexivity|].
  rewrite IH, andb_true_r. apply N.leb_le, Byte.to_N_bounded.
Qed.

Lemma btoa_fromCharCode (buffer : list byte) :
  btoa (String_fromCharCode (Uint8Array buffer)) = Ok (Buffer_toString_base64 buffer).
Proof.
  rewrite fromCharCode_octets. unfold btoa.
  now rewrite octets_in_range.
Qed.

(** ** The two variants are one program *)

Lemma getAuthToken_same (credentials : jsstring) :
  V1.getAuthToken credentials = V2.getAuthToken credentials.
Proof. reflexivity. Qed.

Lemma variants_agree (html1 html2 : jsstring) (request : Request) (env : Env) :
  ((method request === str "GET") && (pathname (url request) === str "/")) = false \/
  (pathname (url request) === str "/favicon.ico") = true ->
  V1.fetch html1 request env = V2.fetch html2 request env.
Proof.
  intros H. unfold V1.fetch, V2.fetch.
  destruct (pathname (url request) === str "/favicon.ico") eqn:Hfav; [reflexivity|].
  destruct H as [H|H]; [rewrite H|discriminate].
  destruct (negb (method request === str "POST")); [reflexivity|].
  destruct (truthy (SHEETS_SERVICE_KEY_JSON env)) as [credentials|]; [|reflexivity].
  destruct (byteLength (arrayBuffer request) =? 0); [reflexivity|].
  rewrite btoa_fromCharCode. reflexivity.
Qed.

(** ** From the answer of the speech API to the response *)

Lemma V2_api_answered (html : jsstring) (request : Request) (env : Env)
      (w : World) (r : result ApiResponse) :
  api_answered (trace w (V2.fetch html request env)) r ->
  outcome w (V2.fetch html request env) = respond r.
Proof.
  intros (target & init & Hin). revert Hin.
  unfold outcome, trace, V2.fetch.
  destruct (pathname (url request) === str "/favicon.ico"); [intros []|].
  destruct ((method request === str "GET") && (pathname (url request) === str "/"));
    [intros []|].
  destruct (negb (method request === str "POST")); [intros []|].
  destruct (truthy (SHEETS_SERVICE_KEY_JSON env)) as [credentials|]; [|intros []].
  destruct (byteLength (arrayBuffer request) =? 0); [intros []|].
  cbn [bind Monad_prog prog_bind V2.getAuthToken JSON_parse JWT_authorize global_fetch
       run settle attempt].
  destruct (parse_answer w credentials) as [[|email key]|e];
    cbn [prog_bind settle run fst]; try (intros [Hin|[]]; discriminate Hin).
  destruct (authorize_answer w email key [cloud_platform_scope]) as [token|e];
    cbn [prog_bind settle run fst ret Monad_prog];
    try (intros [Hin|[Hin|[]]]; discriminate Hin).
  match goal with
  | |- context [fetch_answer w ?u ?i] => destruct (fetch_answer w u i) as [resp|err]
  end; cbn [prog_bind settle run fst snd ret Monad_prog attempt].
  - destruct (ok resp) eqn:Hok; cbn [negb].
    + destruct (json_body resp) as [result|e] eqn:Hjson;
        cbn [prog_bind settle run fst snd ret Monad_prog];
        intros [Hin|[Hin|[Hin|[]]]]; try discriminate Hin;
        injection Hin as _ _ <-; cbn [respond]; rewrite Hok, Hjson; reflexivity.
    + cbn [prog_bind settle run fst snd ret Monad_prog];
        intros [Hin|[Hin|[Hin|[]]]]; try discriminate Hin;
        injection Hin as _ _ <-; cbn [respond]; rewrite Hok; reflexivity.
  - intros [Hin|[Hin|[Hin|[]]]]; try discriminate Hin;
      injection Hin as _ _ <-; reflexivity.
Qed.

Lemma V1_api_answered (html : jsstring) (request : Request) (env : Env)
      (w : World) (r : result ApiResponse) :
  api_answered (trace w (V1.fetch html request env)) r ->
  outcome w (V1.fetch html request env) = respond r.
Proof.
  destruct ((method request === str "GET") && (pathname (url request) === str "/"))
    eqn:Hroot.
  - intros (target & init & Hin). exfalso. revert Hin.
    unfold trace, V1.fetch. rewrite Hroot.
    destruct (pathname (url request) === str "/favicon.ico"); intros [].
  - rewrite (variants_agree html html request env (or_introl Hroot)).
    apply V2_api_answered.
Qed.

(** The speech API is called only for a POST, outside the icon path, with
    a configured key and a body that is not empty. *)
Lemma api_called_for_audio_posts (html : jsstring) (request : Request) (env : Env)
      (w : World) (r : result ApiResponse) :
  api_answered (trace w (V1.fetch html request env)) r ->
  method request = str "POST"
  /\ pathname (url request) <> str "/favicon.ico"
  /\ (exists credentials, truthy (SHEETS_SERVICE_KEY_JSON env) = Some credentials)
  /\ arrayBuffer request <> [].
Proof.
  intros (target & init & Hin). revert Hin.
  unfold trace, V1.fetch.
  destruct (pathname (url request) === str "/favicon.ico") eqn:Hfav; [intros []|].
  destruct ((method request === str "GET") && (pathname (url request) === str "/"));
    [intros []|].
  destruct (method request === str "POST") eqn:Hpost; [|intros []].
  destruct (truthy (SHEETS_SERVICE_KEY_JSON env)) as [credentials|]; [|intros []].
  destruct (arrayBuffer request) as [|b buffer] eqn:Hbuf; [intros []|].
  intros _. repeat split.
  - now apply strict_eq_true.
  - now apply strict_eq_false.
  - now exists credentials.
  - discriminate.
Qed.

(** A POST outside the icon path, with a configured key that parses and a
    body that is not empty, reaches the speech API once the token exchange
    has given a token: the handler parses the key, exchanges it, sends the
    audio in base64 under the bearer token, and answers from what the API
    said. *)
Lemma relay_calls_api (html : jsstring) (request : Request) (env : Env) (w : World)
      (credentials : jsstring) (email key : option jsstring) (token : Credentials) :
  pathname (url request) <> str "/favicon.ico" ->
  method request = str "POST" ->
  truthy (SHEETS_SERVICE_KEY_JSON env) = Some credentials ->
  arrayBuffer request <> [] ->
  parse_answer w credentials = Ok (KeyValue email key) ->
  authorize_answer w email key [cloud_platform_scope] = Ok token ->
  let init :=
    {| fetch_method := str "POST";
       fetch_headers :=
         [ (str "Authorization", str "Bearer " ++ token_text (access_token_of token));
           (str "Content-Type", str "application/json") ];
       fetch_body :=
         JSON_stringify (payload (Buffer_toString_base64 (arrayBuffer request))) |} in
  run w (V1.fetch html request env)
  = ([ Parsed credentials (Ok (KeyValue email key));
       Authorized email key [cloud_platform_scope] (Ok token);
       Fetched sttApiUrl init (fetch_answer w sttApiUrl init) ],
     respond (fetch_answer w sttApiUrl init)).
Proof.
  intros Hfav Hpost Hkey Hbody Hparse Hauth init.
  apply strict_eq_false in Hfav.
  unfold V1.fetch. rewrite Hfav, Hpost, Hkey.
  change ((str "POST" === str "GET") && (pathname (url request) === str "/"))
    with false.
  change (negb (str "POST" === str "POST")) with false. cbv iota.
  destruct (arrayBuffer request) as [|b buffer] eqn:Hbuf; [now destruct Hbody|].
  change (byteLength (b :: buffer) =? 0) with false. cbv iota.
  rewrite btoa_fromCharCode.
  cbn [bind Monad_prog prog_bind V1.getAuthToken JSON_parse JWT_authorize global_fetch
       run settle attempt].
  rewrite Hparse. cbn [prog_bind settle run]. rewrite Hauth.
  cbn [prog_bind settle run ret Monad_prog attempt].
  fold init.
  destruct (fetch_answer w sttApiUrl init) as [resp|err];
    cbn [prog_bind settle run ret Monad_prog attempt respond]; [|reflexivity].
  destruct (ok resp); cbn [negb]; [|reflexivity].
  destruct (json_body resp); reflexivity.
Qed.

(** ** Dispatch *)

(** C8.  Every request whose path is [/favicon.ico], whatever its method,
    query string, headers, body and environment, is answered with a 302
    redirect whose [Location] is the fixed icon URL; no outside call is
    made. *)
Theorem favicon_redirects (html : jsstring) (request : Request) (env : Env) (w : World) :
  pathname (url request) = str "/favicon.ico" ->
  run w (V1.fetch html request env)
  = ([], Ok {| status := 302;
               headers := [ (str "Location",
                             str "https://jacklehamster.github.io/stt-worker/icon.png") ];
               body := None |}).
Proof.
  intros Hpath. apply strict_eq_true in Hpath.
  unfold V1.fetch. rewrite Hpath. reflexivity.
Qed.

Lemma favicon_redirects_witness :
  run (world_answering (Ok answer_hello)) (V1.fetch page (post favicon sample_audio) no_key)
  = ([], Ok {| status := 302;
               headers := [ (str "Location",
                             str "https://jacklehamster.github.io/stt-worker/icon.png") ];
               body := None |}).
Proof. apply favicon_redirects. reflexivity. Defined.

(** C7, as the code has it.  A request outside the icon path that is
    neither a GET of the root nor a POST is answered with status 405,
    content type [text/plain] and the body
    [Method not allowed. Use POST with audio data.]; no outside call is
    made. *)
Theorem other_methods_are_405 (html : jsstring) (request : Request) (env : Env) (w : World) :
  pathname (url request) <> str "/favicon.ico" ->
  ~ (method request = str "GET" /\ pathname (url request) = str "/") ->
  method request <> str "POST" ->
  run w (V1.fetch html request env)
  = ([], Ok {| status := 405;
               headers := [ (str "Content-Type", str "text/plain") ];
               body := Some (str "Method not allowed. Use POST with audio data.") |}).
Proof.
  intros Hfav Hroot Hpost.
  apply strict_eq_false in Hfav, Hpost.
  unfold V1.fetch. rewrite Hfav, Hpost.
  destruct ((method request === str "GET") && (pathname (url request) === str "/"))
    eqn:H; [|reflexivity].
  apply andb_true_iff in H as [Hm Hp].
  apply strict_eq_true in Hm, Hp. now destruct Hroot.
Qed.

Lemma other_methods_are_405_witness :
  run (world_answering (Ok answer_hello)) (V1.fetch page (bare (str "DELETE") root) with_key)
  = ([], Ok {| status := 405;
               headers := [ (str "Content-Type", str "text/plain") ];
               body := Some (str "Method not allowed. Use POST with audio data.") |}).
Proof.
  apply other_methods_are_405.
  - discriminate.
  - intros [H _]. discriminate H.
  - discriminate.
Defined.

(** C7, as the claim words it, fails: a DELETE of the root is outside the
    icon path, is not a GET of the root and is not a POST, and the body of
    its 405 is not the text [Method not allowed]. *)
Lemma method_not_allowed_body_differs :
  pathname (url (bare (str "DELETE") root)) <> str "/favicon.ico"
  /\ method (bare (str "DELETE") root) <> str "GET"
  /\ method (bare (str "DELETE") root) <> str "POST"
  /\ outcome (world_answering (Ok answer_hello))
             (V1.fetch page (bare (str "DELETE") root) with_key)
     = Ok {| status := 405;
             headers := [ (str "Content-Type", str "text/plain") ];
             body := Some (str "Method not allowed. Use POST with audio data.") |}
  /\ ~ answers (outcome (world_answering (Ok answer_hello))
                        (V1.fetch page (bare (str "DELETE") root) with_key))
               405 (str "Method not allowed").
Proof.
  repeat split; try discriminate.
  intros (r & Hr & _ & Hb). vm_compute in Hr.
  injection Hr as <-. discriminate Hb.
Qed.

(** C6, as the code has it.  A POST outside the icon path, when the
    binding [SHEETS_SERVICE_KEY_JSON] is absent, is answered with status
    500 and exactly the text [Missing service credentials]; no outside
    call is made. *)
Theorem missing_key_is_500 (html : jsstring) (request : Request) (env : Env) (w : World) :
  pathname (url request) <> str "/favicon.ico" ->
  method request = str "POST" ->
  SHEETS_SERVICE_KEY_JSON env = None ->
  run w (V1.fetch html request env)
  = ([], Ok {| status := 500;
               headers := [ (str "Content-Type", str "text/plain;charset=UTF-8") ];
               body := Some (str "Missing service credentials") |}).
Proof.
  intros Hfav Hpost Hkey.
  apply strict_eq_false in Hfav.
  unfold V1.fetch. rewrite Hfav, Hpost, Hkey. reflexivity.
Qed.

Lemma missing_key_is_500_witness :
  run (world_answering (Ok answer_hello)) (V1.fetch page (post root sample_audio) no_key)
  = ([], Ok {| status := 500;
               headers := [ (str "Content-Type", str "text/plain;charset=UTF-8") ];
               body := Some (str "Missing service credentials") |}).
Proof.
  apply missing_key_is_500; [discriminate | reflexivity | reflexivity].
Defined.

(** C6, as the claim words it, fails: a POST to the icon path with no key
    configured is redirected, not answered with 500. *)
Lemma missing_key_on_icon_path_redirects :
  method (post favicon sample_audio) = str "POST"
  /\ SHEETS_SERVICE_KEY_JSON no_key = None
  /\ outcome (world_answering (Ok answer_hello))
             (V1.fetch page (post favicon sample_audio) no_key)
     = Ok (Response_redirect icon_url)
  /\ ~ answers (outcome (world_answering (Ok answer_hello))
                        (V1.fetch page (post favicon sample_audio) no_key))
               500 (str "Missing service credentials").
Proof.
  repeat split.
  intros (r & Hr & Hs & _). vm_compute in Hr.
  injection Hr as <-. discriminate Hs.
Qed.

(** C1, as the code has it.  A POST outside the icon path whose body is
    empty, when a key is configured, is answered with status 400 and the
    text [No audio data provided]; no outside call is made. *)
Theorem empty_body_is_400 (html : jsstring) (request : Request) (env : Env) (w : World)
        (credentials : jsstring) :
  pathname (url request) <> str "/favicon.ico" ->
  method request = str "POST" ->
  truthy (SHEETS_SERVICE_KEY_JSON env) = Some credentials ->
  arrayBuffer request = [] ->
  run w (V1.fetch html request env)
  = ([], Ok {| status := 400;
               headers := [ (str "Content-Type", str "text/plain;charset=UTF-8") ];
               body := Some (str "No audio data provided") |}).
Proof.
  intros Hfav Hpost Hkey Hbody.
  apply strict_eq_false in Hfav.
  unfold V1.fetch. rewrite Hfav, Hpost, Hkey, Hbody. reflexivity.
Qed.

Lemma empty_body_is_400_witness :
  run (world_answering (Ok answer_hello)) (V1.fetch page (post root []) with_key)
  = ([], Ok {| status := 400;
               headers := [ (str "Content-Type", str "text/plain;charset=UTF-8") ];
               body := Some (str "No audio data provided") |}).
Proof.
  apply (empty_body_is_400 page (post root []) with_key _ (str "{}"));
    [discriminate | reflexivity | reflexivity | reflexivity].
Defined.

(** C1, as the claim words it, fails: a POST of an empty body with no key
    configured is answered with the 500 of the missing key, not with 400;
    and a POST of an empty body to the icon path is redirected. *)
Lemma empty_body_without_key_is_500 :
  method (post root []) = str "POST"
  /\ arrayBuffer (post root []) = []
  /\ SHEETS_SERVICE_KEY_JSON no_key = None
  /\ outcome (world_answering (Ok answer_hello)) (V1.fetch page (post root []) no_key)
     = Ok {| status := 500;
             headers := [ (str "Content-Type", str "text/plain;charset=UTF-8") ];
             body := Some (str "Missing service credentials") |}
  /\ ~ answers (outcome (world_answering (Ok answer_hello))
                        (V1.fetch page (post root []) no_key))
               400 (str "No audio data provided")
  /\ outcome (world_answering (Ok answer_hello)) (V1.fetch page (post favicon []) with_key)
     = Ok (Response_redirect icon_url)
  /\ ~ answers (outcome (world_answering (Ok answer_hello))
                        (V1.fetch page (post favicon []) with_key))
               400 (str "No audio data provided").
Proof.
  repeat split;
    intros (r & Hr & Hs & _); vm_compute in Hr;
    injection Hr as <-; discriminate Hs.
Qed.

(** ** The relay *)

(** C4.  When the outbound call to the speech API was made and threw (the
    request then is a POST with a body and a configured key, see
    [api_called_for_audio_posts]), the handler answers with status 503
    and a body that is [Fetch error: ] followed by the message of the
    error thrown. *)
Theorem fetch_failure_is_503 (html : jsstring) (request : Request) (env : Env)
        (w : World) (err : JsError) :
  api_answered (trace w (V1.fetch html request env)) (Err err) ->
  outcome w (V1.fetch html request env)
  = Ok {| status := 503;
          headers := [ (str "Content-Type", str "text/plain;charset=UTF-8") ];
          body := Some (str "Fetch error: " ++ message err) |}.
Proof.
  intros H. now rewrite (V1_api_answered _ _ _ _ _ H).
Qed.

Lemma fetch_failure_is_503_witness :
  outcome (world_answering (Err network_down))
          (V1.fetch page (post root sample_audio) with_key)
  = Ok {| status := 503;
          headers := [ (str "Content-Type", str "text/plain;charset=UTF-8") ];
          body := Some (str "Fetch error: Network connection lost.") |}.
Proof.
  apply (fetch_failure_is_503 page (post root sample_audio) with_key
           (world_answering (Err network_down)) network_down).
  eexists _, _. cbv [trace fst]. cbn. right; right; left. reflexivity.
Defined.

(** C5.  When the outbound call was made and the speech API answered with
    a status outside 200-299, the handler answers with status 500 and a
    body that holds the text of the API's answer, after [STT API error: ]. *)
Theorem api_error_is_500 (html : jsstring) (request : Request) (env : Env)
        (w : World) (sttResponse : ApiResponse) :
  api_answered (trace w (V1.fetch html request env)) (Ok sttResponse) ->
  ok sttResponse = false ->
  outcome w (V1.fetch html request env)
  = Ok {| status := 500;
          headers := [ (str "Content-Type", str "text/plain;charset=UTF-8") ];
          body := Some (str "STT API error: " ++ text sttResponse) |}.
Proof.
  intros H Hok. rewrite (V1_api_answered _ _ _ _ _ H).
  unfold respond. now rewrite Hok.
Qed.

Lemma api_error_is_500_witness :
  outcome (world_answering (Ok answer_forbidden))
          (V1.fetch page (post root sample_audio) with_key)
  = Ok {| status := 500;
          headers := [ (str "Content-Type", str "text/plain;charset=UTF-8") ];
          body := Some (str "STT API error: PERMISSION_DENIED") |}.
Proof.
  apply (api_error_is_500 page (post root sample_audio) with_key
           (world_answering (Ok answer_forbidden)) answer_forbidden).
  - eexists _, _. cbv [trace fst]. cbn. right; right; left. reflexivity.
  - reflexivity.
Defined.

(** C2.  A POST whose body is 10 bytes, with a key configured, in a run
    where the speech API answered with a success status and the JSON
    [{results:[{alternatives:[{transcript:"hello"}]}]}], is answered with
    status 200 and exactly the body [{"text":"hello"}]. *)
Theorem hello_scenario (html : jsstring) (request : Request) (env : Env)
        (w : World) (credentials : jsstring) (sttResponse : ApiResponse) :
  method request = str "POST" ->
  List.length (arrayBuffer request) = 10%nat ->
  truthy (SHEETS_SERVICE_KEY_JSON env) = Some credentials ->
  api_answered (trace w (V1.fetch html request env)) (Ok sttResponse) ->
  ok sttResponse = true ->
  json_body sttResponse
  = Ok {| results :=
            Some [ {| alternatives :=
                        Some [ {| transcript := Some (str "hello") |} ] |} ] |} ->
  outcome w (V1.fetch html request env)
  = Ok {| status := 200;
          headers := [ (str "Content-Type", str "application/json");
                       (str "Cache-Control", str "no-store") ];
          body := Some [123; 34; 116; 101; 120; 116; 34; 58;
                        34; 104; 101; 108; 108; 111; 34; 125] |}.
Proof.
  intros _ _ _ H Hok Hjson. rewrite (V1_api_answered _ _ _ _ _ H).
  unfold respond. rewrite Hok, Hjson. reflexivity.
Qed.

Lemma hello_scenario_witness :
  outcome (world_answering (Ok answer_hello))
          (V1.fetch page (post root sample_audio) with_key)
  = Ok {| status := 200;
          headers := [ (str "Content-Type", str "application/json");
                       (str "Cache-Control", str "no-store") ];
          body := Some (str "{" ++ quoted (str "text") ++ str ":"
                        ++ quoted (str "hello") ++ str "}") |}.
Proof.
  apply (hello_scenario page (post root sample_audio) with_key
           (world_answering (Ok answer_hello)) (str "{}") answer_hello).
  - reflexivity.
  - reflexivity.
  - reflexivity.
  - eexists _, _. cbv [trace fst]. cbn. right; right; left. reflexivity.
  - reflexivity.
  - reflexivity.
Defined.

(** C3.  When the outbound call was made and the speech API answered with
    a success status and a JSON body [result], the handler answers with
    status 200, the content type [application/json], [Cache-Control:
    no-store] and the JSON body [{"text":t}].  The text [t] is read from
    [results[0].alternatives[0].transcript] alone: it is that transcript
    when there is one (and it is not empty), and the fixed text
    [No transcription available] when there is none (or an empty one). *)
Theorem success_response (html : jsstring) (request : Request) (env : Env)
        (w : World) (sttResponse : ApiResponse) (result : RecognizeResponse) :
  method request = str "POST" ->
  arrayBuffer request <> [] ->
  api_answered (trace w (V1.fetch html request env)) (Ok sttResponse) ->
  ok sttResponse = true ->
  json_body sttResponse = Ok result ->
  exists t,
    outcome w (V1.fetch html request env)
    = Ok {| status := 200;
            headers := [ (str "Content-Type", str "application/json");
                         (str "Cache-Control", str "no-store") ];
            body := Some (text_object t) |}
    /\ get_header (str "cache-control")
                  [ (str "Content-Type", str "application/json");
                    (str "Cache-Control", str "no-store") ]
       = Some (str "no-store")
    /\ (forall s, first_transcript result = Some s -> s <> [] -> t = s)
    /\ (first_transcript result = None -> t = str "No transcription available")
    /\ (first_transcript result = Some [] -> t = str "No transcription available").
Proof.
  intros _ _ H Hok Hjson. exists (transcription result).
  rewrite (V1_api_answered _ _ _ _ _ H). unfold respond. rewrite Hok, Hjson.
  split; [reflexivity|]. split; [reflexivity|].
  unfold transcription, first_transcript.
  destruct (results result) as [[|r rs]|]; cbn;
    [repeat split; discriminate | | repeat split; discriminate].
  destruct (alternatives r) as [[|a alts]|]; cbn;
    [repeat split; discriminate | | repeat split; discriminate].
  repeat split.
  - intros s -> Hs. destruct s; [now destruct Hs | reflexivity].
  - now intros ->.
  - now intros ->.
Qed.

Lemma success_response_witness :
  exists t,
    outcome (world_answering (Ok (answer_with None)))
            (V1.fetch page (post root sample_audio) with_key)
    = Ok {| status := 200;
            headers := [ (str "Content-Type", str "application/json");
                         (str "Cache-Control", str "no-store") ];
            body := Some (text_object t) |}
    /\ t = str "No transcription available".
Proof.
  destruct (success_response page (post root sample_audio) with_key
              (world_answering (Ok (answer_with None))) (answer_with None)
              {| results := Some [ {| alternatives := Some [ {| transcript := None |} ] |} ] |})
    as (t & Ho & _ & _ & Hnone & _).
  - reflexivity.
  - discriminate.
  - eexists _, _. cbv [trace fst]. cbn. right; right; left. reflexivity.
  - reflexivity.
  - reflexivity.
  - exists t. split; [exact Ho | apply Hnone; reflexivity].
Defined.

(** C9.  When the first alternative of the first result has a transcript
    that is the empty string, the text of the success response is
    [No transcription available], in both variants. *)
Theorem empty_transcript_falls_back (html : jsstring) (request : Request) (env : Env)
        (w : World) (sttResponse : ApiResponse) (result : RecognizeResponse)
        (r : SpeechResult) (rs : list SpeechResult)
        (a : Alternative) (alts : list Alternative) :
  ok sttResponse = true ->
  json_body sttResponse = Ok result ->
  results result = Some (r :: rs) ->
  alternatives r = Some (a :: alts) ->
  transcript a = Some [] ->
  (api_answered (trace w (V1.fetch html request env)) (Ok sttResponse) ->
   outcome w (V1.fetch html request env)
   = Ok {| status := 200;
           headers := [ (str "Content-Type", str "application/json");
                        (str "Cache-Control", str "no-store") ];
           body := Some (text_object (str "No transcription available")) |})
  /\
  (api_answered (trace w (V2.fetch html request env)) (Ok sttResponse) ->
   outcome w (V2.fetch html request env)
   = Ok {| status := 200;
           headers := [ (str "Content-Type", str "application/json");
                        (str "Cache-Control", str "no-store") ];
           body := Some (text_object (str "No transcription available")) |}).
Proof.
  intros Hok Hjson Hres Halt Htr.
  assert (Ht : transcription result = str "No transcription available").
  { unfold transcription. rewrite Hres. cbn. rewrite Halt. cbn. now rewrite Htr. }
  split; intros H;
    [rewrite (V1_api_answered _ _ _ _ _ H) | rewrite (V2_api_answered _ _ _ _ _ H)];
    unfold respond; rewrite Hok, Hjson, Ht; reflexivity.
Qed.

Lemma empty_transcript_falls_back_witness :
  outcome (world_answering (Ok (answer_with (Some []))))
          (V1.fetch page (post root sample_audio) with_key)
  = Ok {| status := 200;
          headers := [ (str "Content-Type", str "application/json");
                       (str "Cache-Control", str "no-store") ];
          body := Some (text_object (str "No transcription available")) |}
  /\
  outcome (world_answering (Ok (answer_with (Some []))))
          (V2.fetch page (post root sample_audio) with_key)
  = Ok {| status := 200;
          headers := [ (str "Content-Type", str "application/json");
                       (str "Cache-Control", str "no-store") ];
          body := Some (text_object (str "No transcription available")) |}.
Proof.
  destruct (empty_transcript_falls_back page (post root sample_audio) with_key
              (world_answering (Ok (answer_with (Some [])))) (answer_with (Some []))
              {| results := Some [ {| alternatives := Some [ {| transcript := Some [] |} ] |} ] |}
              {| alternatives := Some [ {| transcript := Some [] |} ] |} []
              {| transcript := Some [] |} [])
    as [H1 H2]; try reflexivity.
  split.
  - apply H1. eexists _, _. cbv [trace fst]. cbn. right; right; left. reflexivity.
  - apply H2. eexists _, _. cbv [trace fst]. cbn. right; right; left. reflexivity.
Defined.

(** ** The two variants *)



(** * More of the handler *)

(** ** The runs, spelled out *)

Lemma V2_run (html : jsstring) (request : Request) (env : Env) (w : World) :
  run w (V2.fetch html request env) = handle (page_v2 html) request env w.
Proof.
  unfold V2.fetch, handle.
  destruct (pathname (url request) === str "/favicon.ico"); [reflexivity|].
  destruct ((method request === str "GET") && (pathname (url request) === str "/"));
    [reflexivity|].
  destruct (negb (method request === str "POST")); [reflexivity|].
  destruct (truthy (SHEETS_SERVICE_KEY_JSON env)) as [credentials|]; [|reflexivity].
  destruct (arrayBuffer request) as [|b buffer]; [reflexivity|].
  change (byteLength (b :: buffer) =? 0) with false. cbv iota.
  unfold relay.
  cbn [bind Monad_prog prog_bind V2.getAuthToken JSON_parse JWT_authorize global_fetch
       run settle attempt].
  destruct (parse_answer w credentials) as [[|email key]|e];
    cbn [prog_bind settle run]; try reflexivity.
  destruct (authorize_answer w email key [cloud_platform_scope]) as [token|e];
    cbn [prog_bind settle run ret Monad_prog attempt]; try reflexivity.
  fold (stt_request (access_token_of token) (b :: buffer)).
  destruct (fetch_answer w sttApiUrl (stt_request (access_token_of token) (b :: buffer)))
    as [resp|err];
    cbn [prog_bind settle run ret Monad_prog attempt respond]; [|reflexivity].
  destruct (ok resp); cbn [negb]; [|reflexivity].
  destruct (json_body resp); reflexivity.
Qed.

Lemma V1_run (html : jsstring) (request : Request) (env : Env) (w : World) :
  run w (V1.fetch html request env) = handle (page_v1 html) request env w.
Proof.
  destruct ((method request === str "GET") && (pathname (url request) === str "/"))
    eqn:Hroot.
  - unfold V1.fetch, handle. rewrite Hroot.
    destruct (pathname (url request) === str "/favicon.ico"); reflexivity.
  - rewrite (variants_agree html html request env (or_introl Hroot)), V2_run.
    unfold handle. rewrite Hroot. reflexivity.
Qed.

(** ** The demo page *)

(** X1.  In the first variant every GET of the root path is answered with
    status 200, the page as body, the content type [text/html] and
    [Cache-Control: public, max-age=3600], whatever the environment (a key
    is not needed), the query and the headers; no outside call is made. *)
Theorem get_root_serves_page (html : jsstring) (request : Request) (env : Env) (w : World) :
  method request = str "GET" ->
  pathname (url request) = str "/" ->
  run w (V1.fetch html request env)
  = ([], Ok {| status := 200;
               headers := [ (str "Content-Type", str "text/html");
                            (str "Cache-Control", str "public, max-age=3600") ];
               body := Some html |}).
Proof.
  intros Hm Hp. rewrite V1_run. unfold handle. rewrite Hm, Hp. reflexivity.
Qed.

Lemma get_root_serves_page_witness :
  run (world_answering (Err network_down)) (V1.fetch page (bare (str "GET") root) no_key)
  = ([], Ok {| status := 200;
               headers := [ (str "Content-Type", str "text/html");
                            (str "Cache-Control", str "public, max-age=3600") ];
               body := Some page |}).
Proof. apply get_root_serves_page; reflexivity. Defined.

(** X2.  In the second variant every GET of the root path is answered
    with status 200, the page as body and the content type [text/html],
    and no [Cache-Control] header; no outside call is made. *)
Theorem get_root_serves_page_v2 (html : jsstring) (request : Request) (env : Env)
        (w : World) :
  method request = str "GET" ->
  pathname (url request) = str "/" ->
  run w (V2.fetch html request env)
  = ([], Ok {| status := 200;
               headers := [ (str "Content-Type", str "text/html") ];
               body := Some html |})
  /\ forall r, outcome w (V2.fetch html request env) = Ok r ->
               get_header (str "Cache-Control") (headers r) = None.
Proof.
  intros Hm Hp. unfold outcome. rewrite V2_run. unfold handle. rewrite Hm, Hp.
  split; [reflexivity|]. cbn. intros r H. injection H as <-. reflexivity.
Qed.

Lemma get_root_serves_page_v2_witness :
  run (world_answering (Err network_down)) (V2.fetch page (bare (str "GET") root) no_key)
  = ([], Ok {| status := 200;
               headers := [ (str "Content-Type", str "text/html") ];
               body := Some page |}).
Proof. apply get_root_serves_page_v2; reflexivity. Defined.

(** ** The key *)

(** X3.  A key that is configured as the empty string counts as missing:
    a POST outside the icon path is answered with status 500 and
    [Missing service credentials], and the key is not parsed. *)
Theorem empty_key_is_missing (html : jsstring) (request : Request) (env : Env) (w : World) :
  pathname (url request) <> str "/favicon.ico" ->
  method request = str "POST" ->
  SHEETS_SERVICE_KEY_JSON env = Some [] ->
  run w (V1.fetch html request env)
  = ([], Ok {| status := 500;
               headers := [ (str "Content-Type", str "text/plain;charset=UTF-8") ];
               body := Some (str "Missing service credentials") |}).
Proof.
  intros Hfav Hpost Hkey. apply strict_eq_false in Hfav.
  rewrite V1_run. unfold handle. rewrite Hfav, Hpost, Hkey. reflexivity.
Qed.

Lemma empty_key_is_missing_witness :
  run (world_answering (Ok answer_hello))
      (V1.fetch page (post root sample_audio) {| SHEETS_SERVICE_KEY_JSON := Some [] |})
  = ([], Ok {| status := 500;
               headers := [ (str "Content-Type", str "text/plain;charset=UTF-8") ];
               body := Some (str "Missing service credentials") |}).
Proof.
  apply empty_key_is_missing; [discriminate | reflexivity | reflexivity].
Defined.

(** The run of a POST that passes the guards is the relay. *)
Lemma relaying (html : jsstring) (request : Request) (env : Env) (w : World)
      (credentials : jsstring) :
  pathname (url request) <> str "/favicon.ico" ->
  method request = str "POST" ->
  truthy (SHEETS_SERVICE_KEY_JSON env) = Some credentials ->
  arrayBuffer request <> [] ->
  run w (V1.fetch html request env) = relay w credentials (arrayBuffer request).
Proof.
  intros Hfav Hpost Hkey Hbody. apply strict_eq_false in Hfav.
  rewrite V1_run. unfold handle. rewrite Hfav, Hpost, Hkey.
  destruct (arrayBuffer request); [now destruct Hbody | reflexivity].
Qed.

(** X4.  When the configured key is not JSON, the error of [JSON.parse]
    is thrown out of the handler: no response is returned, and neither
    the token exchange nor the speech API is called. *)
Theorem unparsable_key_is_thrown (html : jsstring) (request : Request) (env : Env)
        (w : World) (credentials : jsstring) (e : JsError) :
  pathname (url request) <> str "/favicon.ico" ->
  method request = str "POST" ->
  truthy (SHEETS_SERVICE_KEY_JSON env) = Some credentials ->
  arrayBuffer request <> [] ->
  parse_answer w credentials = Err e ->
  run w (V1.fetch html request env) = ([ Parsed credentials (Err e) ], Err e).
Proof.
  intros Hfav Hpost Hkey Hbody Hparse.
  rewrite (relaying _ _ _ _ _ Hfav Hpost Hkey Hbody).
  unfold relay. now rewrite Hparse.
Qed.

Lemma unparsable_key_is_thrown_witness :
  run (world_of (Err syntax_error) (Err invalid_grant) (Err network_down))
      (V1.fetch page (post root sample_audio) with_key)
  = ([ Parsed (str "{}") (Err syntax_error) ], Err syntax_error).
Proof.
  apply unparsable_key_is_thrown;
    [discriminate | reflexivity | reflexivity | discriminate | reflexivity].
Defined.

(** X5.  When the configured key is the JSON text [null], reading
    [client_email] of it throws a TypeError out of the handler; the token
    exchange and the speech API are not called. *)
Theorem null_key_is_type_error (html : jsstring) (request : Request) (env : Env)
        (w : World) (credentials : jsstring) :
  pathname (url request) <> str "/favicon.ico" ->
  method request = str "POST" ->
  truthy (SHEETS_SERVICE_KEY_JSON env) = Some credentials ->
  arrayBuffer request <> [] ->
  parse_answer w credentials = Ok KeyNull ->
  trace w (V1.fetch html request env) = [ Parsed credentials (Ok KeyNull) ]
  /\ exists text, outcome w (V1.fetch html request env) = Err (Error (str "TypeError") text).
Proof.
  intros Hfav Hpost Hkey Hbody Hparse. unfold trace, outcome.
  rewrite (relaying _ _ _ _ _ Hfav Hpost Hkey Hbody).
  unfold relay. rewrite Hparse. split; [reflexivity|]. now eexists.
Qed.

Lemma null_key_is_type_error_witness :
  trace (world_of (Ok KeyNull) (Err invalid_grant) (Err network_down))
        (V1.fetch page (post root sample_audio)
                  {| SHEETS_SERVICE_KEY_JSON := Some (str "null") |})
  = [ Parsed (str "null") (Ok KeyNull) ].
Proof.
  apply null_key_is_type_error;
    [discriminate | reflexivity | reflexivity | discriminate | reflexivity].
Defined.

(** X6.  When the token exchange rejects, its error is thrown out of the
    handler: no response is returned and the speech API is not called. *)
Theorem token_exchange_failure_is_thrown (html : jsstring) (request : Request) (env : Env)
        (w : World) (credentials : jsstring) (email key : option jsstring) (e : JsError) :
  pathname (url request) <> str "/favicon.ico" ->
  method request = str "POST" ->
  truthy (SHEETS_SERVICE_KEY_JSON env) = Some credentials ->
  arrayBuffer request <> [] ->
  parse_answer w credentials = Ok (KeyValue email key) ->
  authorize_answer w email key [cloud_platform_scope] = Err e ->
  run w (V1.fetch html request env)
  = ([ Parsed credentials (Ok (KeyValue email key));
       Authorized email key [cloud_platform_scope] (Err e) ],
     Err e).
Proof.
  intros Hfav Hpost Hkey Hbody Hparse Hauth.
  rewrite (relaying _ _ _ _ _ Hfav Hpost Hkey Hbody).
  unfold relay. now rewrite Hparse, Hauth.
Qed.

Lemma token_exchange_failure_is_thrown_witness :
  run (world_of (Ok sample_key) (Err invalid_grant) (Ok answer_hello))
      (V1.fetch page (post root sample_audio) with_key)
  = ([ Parsed (str "{}") (Ok sample_key);
       Authorized (Some (str "sa@example.org")) (Some (str "key"))
                  [cloud_platform_scope] (Err invalid_grant) ],
     Err invalid_grant).
Proof.
  apply token_exchange_failure_is_thrown;
    [discriminate | reflexivity | reflexivity | discriminate | reflexivity | reflexivity].
Defined.

(** X7.  When the speech API answered with a success status and a body
    that is not JSON, the rejection of [json()] is thrown out of the
    handler: no response is returned. *)
Theorem non_json_answer_is_thrown (html : jsstring) (request : Request) (env : Env)
        (w : World) (sttResponse : ApiResponse) (e : JsError) :
  api_answered (trace w (V1.fetch html request env)) (Ok sttResponse) ->
  ok sttResponse = true ->
  json_body sttResponse = Err e ->
  outcome w (V1.fetch html request env) = Err e.
Proof.
  intros H Hok Hjson. rewrite (V1_api_answered _ _ _ _ _ H).
  unfold respond. now rewrite Hok, Hjson.
Qed.

Lemma non_json_answer_is_thrown_witness :
  outcome (world_answering (Ok answer_not_json))
          (V1.fetch page (post root sample_audio) with_key)
  = Err syntax_error.
Proof.
  apply (non_json_answer_is_thrown page (post root sample_audio) with_key
           (world_answering (Ok answer_not_json)) answer_not_json syntax_error).
  - unfold api_answered, trace.
    rewrite (relaying page (post root sample_audio) with_key _ (str "{}"));
      [|discriminate|reflexivity|reflexivity|discriminate].
    unfold relay.
    cbn [world_answering parse_answer authorize_answer fetch_answer fst].
    eexists _, _. right; right; left. reflexivity.
  - reflexivity.
  - reflexivity.
Defined.

(** ** What the handler never does *)



(** X9.  Every response the handler returns, in either variant, has one
    of the statuses 200, 302, 400, 405, 500 and 503. *)
Theorem statuses_are_fixed (html : jsstring) (request : Request) (env : Env) (w : World)
        (r : Response) :
  outcome w (V1.fetch html request env) = Ok r
  \/ outcome w (V2.fetch html request env) = Ok r ->
  In (status r) [200; 302; 400; 405; 500; 503].
Proof.
  assert (H : forall root_page, In (status root_page) statuses ->
                snd (handle root_page request env w) = Ok r -> In (status r) statuses).
  { intros root_page Hroot. unfold handle.
    destruct (pathname (url request) === str "/favicon.ico");
      [intros H; injection H as <-; cbn; tauto|].
    destruct ((method request === str "GET") && (pathname (url request) === str "/"));
      [intros H; injection H as <-; exact Hroot|].
    destruct (negb (method request === str "POST"));
      [intros H; injection H as <-; cbn; tauto|].
    destruct (truthy (SHEETS_SERVICE_KEY_JSON env)) as [credentials|];
      [|intros H; injection H as <-; cbn; tauto].
    destruct (arrayBuffer request) as [|b buffer];
      [intros H; injection H as <-; cbn; tauto|].
    unfold relay.
    destruct (parse_answer w credentials) as [[|email key]|e0]; cbn [snd];
      try discriminate.
    destruct (authorize_answer w email key [cloud_platform_scope]) as [token|e0];
      cbn [snd]; try discriminate.
    destruct (fetch_answer w sttApiUrl (stt_request (access_token_of token) (b :: buffer)))
      as [resp|err]; cbn [respond];
      [|intros H; injection H as <-; cbn; tauto].
    destruct (ok resp); [|intros H; injection H as <-; cbn; tauto].
    destruct (json_body resp); [|discriminate].
    intros H; injection H as <-; cbn; tauto. }
  unfold outcome. rewrite V1_run, V2_run.
  intros [H1|H2]; [apply (H (page_v1 html)) | apply (H (page_v2 html))];
    trivial; cbn; tauto.
Qed.

Lemma statuses_are_fixed_witness :
  In (status (Response_redirect icon_url)) [200; 302; 400; 405; 500; 503].
Proof.
  apply (statuses_are_fixed page (post favicon sample_audio) no_key
           (world_answering (Ok answer_hello))).
  left. reflexivity.
Defined.

(** X10.  The handler calls the outside only for a POST outside the icon
    path with a configured key and a body that is not empty; its first
    call then is the parsing of that key. *)
Theorem no_calls_unless_relaying (html : jsstring) (request : Request) (env : Env)
        (w : World) :
  trace w (V1.fetch html request env) <> [] ->
  method request = str "POST"
  /\ pathname (url request) <> str "/favicon.ico"
  /\ arrayBuffer request <> []
  /\ exists credentials rest,
       truthy (SHEETS_SERVICE_KEY_JSON env) = Some credentials
       /\ trace w (V1.fetch html request env)
          = Parsed credentials (parse_answer w credentials) :: rest.
Proof.
  unfold trace. rewrite V1_run. unfold handle.
  destruct (pathname (url request) === str "/favicon.ico") eqn:Hfav;
    [intros H; now destruct H|].
  destruct ((method request === str "GET") && (pathname (url request) === str "/"));
    [intros H; now destruct H|].
  destruct (method request === str "POST") eqn:Hpost; cbn [negb];
    [|intros H; now destruct H].
  destruct (truthy (SHEETS_SERVICE_KEY_JSON env)) as [credentials|];
    [|intros H; now destruct H].
  destruct (arrayBuffer request) as [|b buffer]; [intros H; now destruct H|].
  intros _. apply strict_eq_true in Hpost. apply strict_eq_false in Hfav.
  repeat split; trivial; [discriminate|].
  exists credentials. unfold relay.
  destruct (parse_answer w credentials) as [[|email key]|e0];
    [| destruct (authorize_answer w email key [cloud_platform_scope]) |];
    eexists; (split; [reflexivity|]); reflexivity.
Qed.

Lemma no_calls_unless_relaying_witness :
  method (post root sample_audio) = str "POST"
  /\ pathname (url (post root sample_audio)) <> str "/favicon.ico"
  /\ arrayBuffer (post root sample_audio) <> []
  /\ exists credentials rest,
       truthy (SHEETS_SERVICE_KEY_JSON with_key) = Some credentials
       /\ trace (world_answering (Ok answer_hello))
                (V1.fetch page (post root sample_audio) with_key)
          = Parsed credentials (parse_answer (world_answering (Ok answer_hello)) credentials)
            :: rest.
Proof. apply no_calls_unless_relaying. discriminate. Defined.

(** X11.  When the speech API is called, it is called once, as the last
    of exactly three calls: the configured key was parsed, the token was
    asked for with the key's email and private key and the single scope
    [https://www.googleapis.com/auth/cloud-platform], and the call goes to
    [https://speech.googleapis.com/v1/speech:recognize] with the token
    just obtained and the base64 of the request body. *)
Theorem api_call_shape (html : jsstring) (request : Request) (env : Env) (w : World)
        (target : jsstring) (init : RequestInit) (r : result ApiResponse) :
  In (Fetched target init r) (trace w (V1.fetch html request env)) ->
  exists credentials email key token,
    truthy (SHEETS_SERVICE_KEY_JSON env) = Some credentials
    /\ target = str "https://speech.googleapis.com/v1/speech:recognize"
    /\ init = stt_request (access_token_of token) (arrayBuffer request)
    /\ trace w (V1.fetch html request env)
       = [ Parsed credentials (Ok (KeyValue email key));
           Authorized email key [str "https://www.googleapis.com/auth/cloud-platform"]
                      (Ok token);
           Fetched target init r ].
Proof.
  unfold trace. rewrite V1_run. unfold handle.
  destruct (pathname (url request) === str "/favicon.ico"); [intros []|].
  destruct ((method request === str "GET") && (pathname (url request) === str "/"));
    [intros []|].
  destruct (negb (method request === str "POST")); [intros []|].
  destruct (truthy (SHEETS_SERVICE_KEY_JSON env)) as [credentials|]; [|intros []].
  destruct (arrayBuffer request) as [|b buffer]; [intros []|].
  unfold relay.
  destruct (parse_answer w credentials) as [[|email key]|e0]; cbn [fst];
    try (intros [H|[]]; discriminate H).
  destruct (authorize_answer w email key [cloud_platform_scope]) as [token|e0];
    cbn [fst]; try (intros [H|[H|[]]]; discriminate H).
  intros [H|[H|[H|[]]]]; try discriminate H.
  injection H as <- <- <-.
  now exists credentials, email, key, token.
Qed.

Lemma api_call_shape_witness :
  exists credentials email key token,
    truthy (SHEETS_SERVICE_KEY_JSON with_key) = Some credentials
    /\ sttApiUrl = str "https://speech.googleapis.com/v1/speech:recognize"
    /\ stt_request (TokenString (str "tok")) sample_audio
       = stt_request (access_token_of token) (arrayBuffer (post root sample_audio))
    /\ trace (world_answering (Ok answer_hello))
             (V1.fetch page (post root sample_audio) with_key)
       = [ Parsed credentials (Ok (KeyValue email key));
           Authorized email key [str "https://www.googleapis.com/auth/cloud-platform"]
                      (Ok token);
           Fetched sttApiUrl (stt_request (TokenString (str "tok")) sample_audio)
                   (Ok answer_hello) ].
Proof.
  apply api_call_shape. unfold trace.
  rewrite (relaying page (post root sample_audio) with_key _ (str "{}"));
    [|discriminate|reflexivity|reflexivity|discriminate].
  unfold relay.
  cbn [world_answering parse_answer authorize_answer fetch_answer fst].
  right; right; left. reflexivity.
Defined.

(** X12.  The token is not checked: when the token exchange resolves
    without an access token ([undefined]), the speech API is called all
    the same, with the header [Authorization: Bearer undefined], and the
    handler answers from what the API said. *)
Theorem undefined_token_is_sent (html : jsstring) (request : Request) (env : Env)
        (w : World) (credentials : jsstring) (email key : option jsstring) :
  pathname (url request) <> str "/favicon.ico" ->
  method request = str "POST" ->
  truthy (SHEETS_SERVICE_KEY_JSON env) = Some credentials ->
  arrayBuffer request <> [] ->
  parse_answer w credentials = Ok (KeyValue email key) ->
  authorize_answer w email key [cloud_platform_scope]
  = Ok {| access_token_of := TokenUndefined |} ->
  exists init,
    In (Fetched sttApiUrl init (fetch_answer w sttApiUrl init))
       (trace w (V1.fetch html request env))
    /\ get_header (str "Authorization") (fetch_headers init) = Some (str "Bearer undefined")
    /\ outcome w (V1.fetch html request env) = respond (fetch_answer w sttApiUrl init).
Proof.
  intros Hfav Hpost Hkey Hbody Hparse Hauth. unfold trace, outcome.
  rewrite (relaying _ _ _ _ _ Hfav Hpost Hkey Hbody).
  unfold relay. rewrite Hparse, Hauth. cbn [access_token_of fst snd].
  exists (stt_request TokenUndefined (arrayBuffer request)).
  split; [right; right; left; reflexivity|]. split; reflexivity.
Qed.

Lemma undefined_token_is_sent_witness :
  exists init,
    In (Fetched sttApiUrl init
          (fetch_answer (world_of (Ok sample_key)
                                  (Ok {| access_token_of := TokenUndefined |})
                                  (Ok answer_forbidden)) sttApiUrl init))
       (trace (world_of (Ok sample_key) (Ok {| access_token_of := TokenUndefined |})
                        (Ok answer_forbidden))
              (V1.fetch page (post root sample_audio) with_key))
    /\ get_header (str "Authorization") (fetch_headers init) = Some (str "Bearer undefined")
    /\ outcome (world_of (Ok sample_key) (Ok {| access_token_of := TokenUndefined |})
                         (Ok answer_forbidden))
               (V1.fetch page (post root sample_audio) with_key)
       = respond (fetch_answer (world_of (Ok sample_key)
                                         (Ok {| access_token_of := TokenUndefined |})
                                         (Ok answer_forbidden)) sttApiUrl init).
Proof.
  apply (undefined_token_is_sent page (post root sample_audio) with_key _ (str "{}")
           (Some (str "sa@example.org")) (Some (str "key")));
    [discriminate | reflexivity | reflexivity | discriminate | reflexivity | reflexivity].
Defined.

(** X13.  The handler reads the method, the path and the body of a
    request and nothing else: two requests that agree on these are
    handled alike, whatever their query strings and headers (the
    [Content-Type] of the audio is neither checked nor passed on). *)
Theorem query_and_headers_are_ignored (html : jsstring) (request1 request2 : Request)
        (env : Env) (w : World) :
  method request1 = method request2 ->
  pathname (url request1) = pathname (url request2) ->
  arrayBuffer request1 = arrayBuffer request2 ->
  run w (V1.fetch html request1 env) = run w (V1.fetch html request2 env).
Proof.
  intros Hm Hp Hb. rewrite !V1_run. unfold handle. now rewrite Hm, Hp, Hb.
Qed.

Lemma query_and_headers_are_ignored_witness :
  run (world_answering (Ok answer_hello)) (V1.fetch page (post root sample_audio) with_key)
  = run (world_answering (Ok answer_hello))
        (V1.fetch page
           {| method := str "POST";
              url := {| pathname := str "/"; search := str "?lang=fr" |};
              request_headers := [ (str "Content-Type", str "text/plain") ];
              arrayBuffer := sample_audio |}
           with_key).
Proof. apply query_and_headers_are_ignored; reflexivity. Defined.

(** ** Base64 loses nothing *)

Lemma below_In (n : nat) (a : N) : a < N.of_nat n -> In a (below n).
Proof.
  intros H. unfold below. apply in_map_iff. exists (N.to_nat a).
  split; [apply N2Nat.id|]. apply in_seq. lia.
Qed.

Lemma check_octet (P : N -> bool) :
  forallb P (below 256) = true -> forall a, a <= 255 -> P a = true.
Proof.
  intros H a Ha. apply (proj1 (forallb_forall P (below 256)) H).
  apply below_In. lia.
Qed.

Lemma check_octets (P : N -> N -> bool) :
  forallb (fun a => forallb (P a) (below 256)) (below 256) = true ->
  forall a b, a <= 255 -> b <= 255 -> P a b = true.
Proof.
  intros H a b Ha Hb.
  apply (check_octet (P a)); [|exact Hb].
  apply (check_octet (fun a => forallb (P a) (below 256)) H a Ha).
Qed.

Lemma check_sextet (P : N -> bool) :
  forallb P (below 64) = true -> forall n, P (N.land n 63) = true.
Proof.
  intros H n. apply (proj1 (forallb_forall P (below 64)) H).
  apply below_In. change 63 with (N.ones 6). rewrite N.land_ones.
  change (N.of_nat 64) with (2 ^ 6). apply N.mod_lt. discriminate.
Qed.

Lemma index_sextet (n : N) : base64_index (sextet n) = N.land n 63.
Proof.
  apply N.eqb_eq. unfold sextet.
  apply (check_sextet
           (fun m => base64_index (nth (N.to_nat m) base64_alphabet base64_pad) =? m)).
  vm_compute. reflexivity.
Qed.

Lemma sextet_not_pad (n : N) : (sextet n =? base64_pad) = false.
Proof.
  apply negb_true_iff. unfold sextet.
  apply (check_sextet
           (fun m => negb (nth (N.to_nat m) base64_alphabet base64_pad =? base64_pad))).
  vm_compute. reflexivity.
Qed.

Lemma sextet_plain (n : N) : plain_unit (sextet n) = true.
Proof.
  unfold sextet.
  apply (check_sextet
           (fun m => plain_unit (nth (N.to_nat m) base64_alphabet base64_pad))).
  vm_compute. reflexivity.
Qed.

Lemma list_ind3 {A : Type} (P : list A -> Prop) :
  P [] -> (forall a, P [a]) -> (forall a b, P [a; b]) ->
  (forall a b c l, P l -> P (a :: b :: c :: l)) ->
  forall l, P l.
Proof.
  intros H0 H1 H2 H3. fix IH 1.
  intros [|a [|b [|c l]]]; [exact H0 | apply H1 | apply H2 | apply H3, IH].
Qed.

Lemma first_octet (a b : N) :
  a <= 255 -> b <= 255 ->
  N.lor (N.shiftl (N.land (N.shiftr a 2) 63) 2)
        (N.shiftr (N.land (N.lor (N.shiftl (N.land a 3) 4) (N.shiftr b 4)) 63) 4) = a.
Proof.
  intros Ha Hb. apply N.eqb_eq.
  apply (check_octets
           (fun a b =>
              N.lor (N.shiftl (N.land (N.shiftr a 2) 63) 2)
                    (N.shiftr (N.land (N.lor (N.shiftl (N.land a 3) 4) (N.shiftr b 4)) 63) 4)
              =? a)); [vm_compute; reflexivity | exact Ha | exact Hb].
Qed.

Lemma first_octet_alone (a : N) :
  a <= 255 ->
  N.lor (N.shiftl (N.land (N.shiftr a 2) 63) 2)
        (N.shiftr (N.land (N.shiftl (N.land a 3) 4) 63) 4) = a.
Proof.
  intros Ha. apply N.eqb_eq.
  apply (check_octet
           (fun a =>
              N.lor (N.shiftl (N.land (N.shiftr a 2) 63) 2)
                    (N.shiftr (N.land (N.shiftl (N.land a 3) 4) 63) 4)
              =? a)); [vm_compute; reflexivity | exact Ha].
Qed.

Lemma second_octet_high (a b : N) :
  a <= 255 -> b <= 255 ->
  N.land (N.land (N.lor (N.shiftl (N.land a 3) 4) (N.shiftr b 4)) 63) 15 = N.shiftr b 4.
Proof.
  intros Ha Hb. apply N.eqb_eq.
  apply (check_octets
           (fun a b =>
              N.land (N.land (N.lor (N.shiftl (N.land a 3) 4) (N.shiftr b 4)) 63) 15
              =? N.shiftr b 4)); [vm_compute; reflexivity | exact Ha | exact Hb].
Qed.

Lemma second_octet_low (b c : N) :
  b <= 255 -> c <= 255 ->
  N.shiftr (N.land (N.lor (N.shiftl (N.land b 15) 2) (N.shiftr c 6)) 63) 2 = N.land b 15.
Proof.
  intros Hb Hc. apply N.eqb_eq.
  apply (check_octets
           (fun b c =>
              N.shiftr (N.land (N.lor (N.shiftl (N.land b 15) 2) (N.shiftr c 6)) 63) 2
              =? N.land b 15)); [vm_compute; reflexivity | exact Hb | exact Hc].
Qed.

Lemma second_octet_low_alone (b : N) :
  b <= 255 ->
  N.shiftr (N.land (N.shiftl (N.land b 15) 2) 63) 2 = N.land b 15.
Proof.
  intros Hb. apply N.eqb_eq.
  apply (check_octet
           (fun b => N.shiftr (N.land (N.shiftl (N.land b 15) 2) 63) 2 =? N.land b 15));
    [vm_compute; reflexivity | exact Hb].
Qed.

Lemma second_octet_glue (b : N) :
  b <= 255 -> N.lor (N.shiftl (N.shiftr b 4) 4) (N.land b 15) = b.
Proof.
  intros Hb. apply N.eqb_eq.
  apply (check_octet (fun b => N.lor (N.shiftl (N.shiftr b 4) 4) (N.land b 15) =? b));
    [vm_compute; reflexivity | exact Hb].
Qed.

Lemma third_octet_high (b c : N) :
  b <= 255 -> c <= 255 ->
  N.land (N.land (N.lor (N.shiftl (N.land b 15) 2) (N.shiftr c 6)) 63) 3 = N.shiftr c 6.
Proof.
  intros Hb Hc. apply N.eqb_eq.
  apply (check_octets
           (fun b c =>
              N.land (N.land (N.lor (N.shiftl (N.land b 15) 2) (N.shiftr c 6)) 63) 3
              =? N.shiftr c 6)); [vm_compute; reflexivity | exact Hb | exact Hc].
Qed.

Lemma third_octet_glue (c : N) :
  c <= 255 -> N.lor (N.shiftl (N.shiftr c 6) 6) (N.land (N.land c 63) 63) = c.
Proof.
  intros Hc. apply N.eqb_eq.
  apply (check_octet
           (fun c => N.lor (N.shiftl (N.shiftr c 6) 6) (N.land (N.land c 63) 63) =? c));
    [vm_compute; reflexivity | exact Hc].
Qed.

Lemma decode_group (c1 c2 c3 c4 : code_unit) (rest : jsstring) :
  (c3 =? base64_pad) = false -> (c4 =? base64_pad) = false ->
  base64_decode (c1 :: c2 :: c3 :: c4 :: rest)
  = N.lor (N.shiftl (base64_index c1) 2) (N.shiftr (base64_index c2) 4)
    :: N.lor (N.shiftl (N.land (base64_index c2) 15) 4) (N.shiftr (base64_index c3) 2)
    :: N.lor (N.shiftl (N.land (base64_index c3) 3) 6) (base64_index c4)
    :: base64_decode rest.
Proof.
  intros H3 H4. cbn [base64_decode]. cbv zeta. now rewrite H3, H4.
Qed.

Lemma decode_encode (octets : list N) :
  Forall (fun a => a <= 255) octets ->
  base64_decode (base64_encode octets) = octets.
Proof.
  induction octets as [|a|a b|a b c octets IH] using list_ind3; intros H.
  - reflexivity.
  - inversion_clear H as [|? ? Ha _].
    cbn [base64_encode base64_decode]. cbv zeta.
    rewrite N.eqb_refl, !index_sextet.
    now rewrite first_octet_alone.
  - inversion_clear H as [|? ? Ha H']. inversion_clear H' as [|? ? Hb _].
    cbn [base64_encode base64_decode]. cbv zeta.
    rewrite sextet_not_pad, N.eqb_refl, !index_sextet.
    rewrite first_octet, second_octet_high, second_octet_low_alone, second_octet_glue;
      trivial.
  - inversion_clear H as [|? ? Ha H']. inversion_clear H' as [|? ? Hb H''].
    inversion_clear H'' as [|? ? Hc H].
    cbn [base64_encode]. rewrite decode_group by apply sextet_not_pad.
    rewrite !index_sextet, IH by exact H.
    rewrite first_octet, second_octet_high, second_octet_low, second_octet_glue,
      third_octet_high, third_octet_glue; trivial.
Qed.

Lemma encode_length (octets : list N) :
  List.length (base64_encode octets) = (4 * ((List.length octets + 2) / 3))%nat.
Proof.
  induction octets as [|a|a b|a b c octets IH] using list_ind3; try reflexivity.
  cbn [base64_encode List.length]. rewrite IH.
  replace (S (S (S (List.length octets))) + 2)%nat
    with (List.length octets + 2 + 1 * 3)%nat by lia.
  rewrite Nat.div_add by discriminate. lia.
Qed.

Lemma encode_plain (octets : list N) :
  forallb plain_unit (base64_encode octets) = true.
Proof.
  induction octets as [|a|a b|a b c octets IH] using list_ind3;
    cbn [base64_encode forallb]; rewrite ?sextet_plain, ?IH; reflexivity.
Qed.

Lemma escape_unit_plain (c : code_unit) : plain_unit c = true -> escape_unit c = [c].
Proof.
  unfold plain_unit, escape_unit. intros H.
  repeat (apply andb_true_iff in H as [H ?]).
  apply N.leb_le in H.
  repeat match goal with
         | H : negb _ = true |- _ => apply negb_true_iff in H
         end.
  repeat match goal with
         | |- context [?c =? ?k] =>
             destruct (N.eqb_spec c k); [first [lia | congruence]|]
         end.
  destruct (N.ltb_spec c 32); [lia|].
  match goal with
  | Hh : is_high_surrogate c = false, Hl : is_low_surrogate c = false |- _ =>
      rewrite Hh, Hl
  end. reflexivity.
Qed.

Lemma escape_json_plain (s : jsstring) :
  forallb plain_unit s = true -> escape_json s = s.
Proof.
  induction s as [|c s IH]; [reflexivity|].
  cbn [forallb]. intros H. apply andb_true_iff in H as [Hc Hs].
  specialize (IH Hs). cbn [escape_json].
  rewrite (escape_unit_plain c Hc).
  destruct s as [|d s]; [reflexivity|].
  assert (Hh : is_high_surrogate c = false).
  { unfold plain_unit in Hc. repeat (apply andb_true_iff in Hc as [Hc ?]).
    now apply negb_true_iff. }
  rewrite Hh. cbn [andb]. now rewrite IH.
Qed.

Lemma payload_text (content : jsstring) :
  forallb plain_unit content = true ->
  JSON_stringify (payload content)
  = str "{" ++ quoted (str "config") ++ str ":{"
    ++ quoted (str "encoding") ++ str ":" ++ quoted (str "MP3") ++ str ","
    ++ quoted (str "sampleRateHertz") ++ str ":16000,"
    ++ quoted (str "languageCode") ++ str ":" ++ quoted (str "en-US") ++ str "},"
    ++ quoted (str "audio") ++ str ":{"
    ++ quoted (str "content") ++ str ":" ++ quoted content ++ str "}}".
Proof.
  intros H. pose proof (escape_json_plain content H) as E.
  unfold payload. cbn [JSON_stringify map fst snd join_fields].
  unfold QuoteJSONString. rewrite E.
  unfold quoted. cbn. rewrite <- !app_assoc. reflexivity.
Qed.

(** ** The audio on the wire *)

(** X14.  The body of the call to the speech API is exactly the JSON text
    [{"config":{"encoding":"MP3","sampleRateHertz":16000,"languageCode":"en-US"},"audio":{"content":"B"}}]
    where [B] is the base64 of the audio: base64 text needs no escaping,
    so it stands between the quotes as it is. *)
Theorem request_body_text (authToken : access_token) (audio : list byte) :
  fetch_body (stt_request authToken audio)
  = str "{" ++ quoted (str "config") ++ str ":{"
    ++ quoted (str "encoding") ++ str ":" ++ quoted (str "MP3") ++ str ","
    ++ quoted (str "sampleRateHertz") ++ str ":16000,"
    ++ quoted (str "languageCode") ++ str ":" ++ quoted (str "en-US") ++ str "},"
    ++ quoted (str "audio") ++ str ":{"
    ++ quoted (str "content") ++ str ":"
    ++ quoted (Buffer_toString_base64 audio) ++ str "}}".
Proof.
  unfold stt_request, fetch_body. apply payload_text. apply encode_plain.
Qed.

(** X15.  The base64 text sent for an audio of [n] bytes has
    [4 * ceil(n / 3)] characters. *)
Theorem base64_length (audio : list byte) :
  List.length (Buffer_toString_base64 audio)
  = (4 * ((List.length audio + 2) / 3))%nat.
Proof.
  unfold Buffer_toString_base64. now rewrite encode_length, length_map.
Qed.

Lemma base64_injective (audio1 audio2 : list byte) :
  Buffer_toString_base64 audio1 = Buffer_toString_base64 audio2 -> audio1 = audio2.
Proof.
  unfold Buffer_toString_base64. intros H.
  apply (f_equal base64_decode) in H.
  rewrite !decode_encode in H
    by (apply Forall_forall; intros a Ha; apply in_map_iff in Ha as (b & <- & _);
        apply Byte.to_N_bounded).
  revert audio2 H. induction audio1 as [|a audio1 IH]; intros [|b audio2];
    cbn [map]; try discriminate; [reflexivity|].
  intros H. injection H as Hab H. f_equal; [|now apply IH].
  pose proof (Byte.of_to_N a) as Ea. rewrite Hab, Byte.of_to_N in Ea. congruence.
Qed.

(** X16.  The relay loses nothing of the audio: two different audio
    buffers give two different bodies of the call to the speech API,
    whatever the tokens. *)
Theorem audio_is_sent_losslessly (token1 token2 : access_token)
        (audio1 audio2 : list byte) :
  audio1 <> audio2 ->
  fetch_body (stt_request token1 audio1) <> fetch_body (stt_request token2 audio2).
Proof.
  intros Hne H. apply Hne, base64_injective.
  rewrite !request_body_text in H. cbn in H.
  injection H as H.
  now apply app_inv_tail, app_inv_tail in H.
Qed.

Lemma audio_is_sent_losslessly_witness :
  fetch_body (stt_request (TokenString (str "tok")) [x00])
  <> fetch_body (stt_request (TokenString (str "tok")) [x00; x00]).
Proof. apply audio_is_sent_losslessly. discriminate. Defined.

(** X17.  A transcript made of code units that JSON leaves alone (no
    quote, no backslash, no control character, no surrogate) is passed on
    as it is: the body of the success response is the transcript between
    double quotes, after the key [text], in one JSON object. *)
Theorem plain_transcript_is_copied (html : jsstring) (request : Request) (env : Env)
        (w : World) (sttResponse : ApiResponse) (result : RecognizeResponse)
        (t : jsstring) :
  api_answered (trace w (V1.fetch html request env)) (Ok sttResponse) ->
  ok sttResponse = true ->
  json_body sttResponse = Ok result ->
  first_transcript result = Some t ->
  t <> [] ->
  forallb plain_unit t = true ->
  outcome w (V1.fetch html request env)
  = Ok {| status := 200;
          headers := [ (str "Content-Type", str "application/json");
                       (str "Cache-Control", str "no-store") ];
          body := Some (str "{" ++ quoted (str "text") ++ str ":" ++ quoted t ++ str "}") |}.
Proof.
  intros H Hok Hjson Ht Hne Hplain. rewrite (V1_api_answered _ _ _ _ _ H).
  unfold respond. rewrite Hok, Hjson.
  assert (E : transcription result = t).
  { revert Ht. unfold transcription, first_transcript.
    destruct (results result) as [[|r rs]|]; try discriminate. cbn.
    destruct (alternatives r) as [[|a alts]|]; try discriminate. cbn.
    intros ->. destruct t; [now destruct Hne | reflexivity]. }
  rewrite E. unfold QuoteJSONString. now rewrite (escape_json_plain t Hplain).
Qed.

Lemma plain_transcript_is_copied_witness :
  outcome (world_answering (Ok answer_hello))
          (V1.fetch page (post root sample_audio) with_key)
  = Ok {| status := 200;
          headers := [ (str "Content-Type", str "application/json");
                       (str "Cache-Control", str "no-store") ];
          body := Some (str "{" ++ quoted (str "text") ++ str ":"
                        ++ quoted (str "hello") ++ str "}") |}.
Proof.
  apply (plain_transcript_is_copied page (post root sample_audio) with_key
           (world_answering (Ok answer_hello)) answer_hello
           {| results := Some [ {| alternatives := Some [ {| transcript := Some (str "hello") |} ] |} ] |}).
  - unfold api_answered, trace.
    rewrite (relaying page (post root sample_audio) with_key _ (str "{}"));
      [|discriminate|reflexivity|reflexivity|discriminate].
    unfold relay.
    cbn [world_answering parse_answer authorize_answer fetch_answer fst].
    eexists _, _. right; right; left. reflexivity.
  - reflexivity.
  - reflexivity.
  - reflexivity.
  - discriminate.
  - reflexivity.
Defined.

(** ** The token exchange *)

(** X18.  [getAuthToken], in both variants, resolves exactly when the
    key parses to a value other than [null] and the exchange, asked with
    the key's [client_email] and [private_key] and the single scope
    [https://www.googleapis.com/auth/cloud-platform], resolves; its value
    then is the [access_token] of what the exchange gave. *)
Theorem getAuthToken_resolves_iff (w : World) (credentials : jsstring) (t : access_token) :
  (outcome w (V1.getAuthToken credentials) = Ok t
   <-> exists email key token,
         parse_answer w credentials = Ok (KeyValue email key)
         /\ authorize_answer w email key
              [str "https://www.googleapis.com/auth/cloud-platform"] = Ok token
         /\ access_token_of token = t)
  /\ run w (V2.getAuthToken credentials) = run w (V1.getAuthToken credentials).
Proof.
  split; [|reflexivity].
  unfold outcome, V1.getAuthToken.
  cbn [bind Monad_prog prog_bind JSON_parse JWT_authorize run settle].
  destruct (parse_answer w credentials) as [[|email key]|e] eqn:Hparse;
    cbn [prog_bind settle run snd].
  - split; [discriminate|]. intros (? & ? & ? & H & _). discriminate H.
  - fold cloud_platform_scope.
    destruct (authorize_answer w email key [cloud_platform_scope]) as [token|e]
      eqn:Hauth; cbn [prog_bind settle run snd ret Monad_prog].
    + split.
      * intros H. injection H as <-. now exists email, key, token.
      * intros (email' & key' & token' & H & Ha & <-).
        injection H as <- <-. rewrite Hauth in Ha. now injection Ha as <-.
    + split; [discriminate|].
      intros (email' & key' & token' & H & Ha & _).
      injection H as <- <-. rewrite Hauth in Ha. discriminate Ha.
  - split; [discriminate|]. intros (? & ? & ? & H & _). discriminate H.
Qed.
